(** * ff: the streaming-session controller of [ui/src/App.tsx]

    A shallow embedding of the React component's state logic:
    - the retrying event source ([useEventSourceWithRetry]),
    - the transcript updater passed to [setMessages] by the message
      handlers of [query] and [getFix],
    - the session identifier slot ([tempDir]) and the fix request,
    - the transaction effect ([handleTransaction]).

    JavaScript strings are [string], [===] on two strings is [String.eqb],
    [s += t] is [s +:+ t].  An array is a [list] read with [!!] and written
    with [<[ i := x ]>]; a property access on [undefined] raises
    [TypeError].  [new Date()] is an explicit argument. *)

From Stdlib Require Import ZArith DecimalString.
From stdpp Require Import base list strings gmap.

(** ** Results of code that may throw *)

Inductive JsError := TypeError | SyntaxError.

Inductive result (A : Type) :=
| Ok (a : A)
| Throw (e : JsError).
Arguments Ok {A} a.
Arguments Throw {A} e.

Global Instance result_ret : MRet result := λ A a, Ok a.

Global Instance result_bind : MBind result := λ A B k r,
  match r with
  | Ok a => k a
  | Throw e => Throw e
  end.

(** ** Data model (interfaces of App.tsx) *)

Inductive Role := user | ai.

Definition Date := Z.

Record Message := mkMessage {
  role : Role;
  title : string;
  content : string;
  timestamp : Date;
}.

Record ForgeResponse := mkForge {
  f_title : string;
  f_output : string;
}.

Record TransactionDetails := mkTx {
  to : string;
  function : string;
  arguments : list string;
  value : string;
  input_data : string;
}.

(** [o?.field === s]: an absent object gives [undefined], which is never
    [===] to a string. *)
Definition opt_eq (o : option string) (s : string) : bool :=
  match o with
  | Some c => String.eqb c s
  | None => false
  end.

(** [messages[messages.length - 1]] *)
Definition lastOf (messages : list Message) : option Message :=
  messages !! (length messages - 1).

Definition FailedSuffix : string := " (Failed)".

(** ** The transcript updater of [query] (App.tsx 172-197)

    The second component tells whether [eventSource.close()] ran. *)
Definition query_updater (now : Date) (data : ForgeResponse)
    (prev : list Message) : result (list Message * bool) :=
  let messages := prev in
  let lastMessage := lastOf messages in
  if opt_eq (content <$> lastMessage) (f_output data)
     && opt_eq (title <$> lastMessage) (f_title data)
  then Ok (messages, false)
  else
    let isNewStep :=
      negb (opt_eq (title <$> lastMessage) (f_title data))
      && negb (String.eqb (f_title data) "Error") in
    if isNewStep then
      Ok (messages ++ [mkMessage ai (f_title data) (f_output data) now], false)
    else
      match lastMessage with
      | None => Throw TypeError
      | Some m =>
          let m1 := mkMessage (role m) (title m)
                      (content m +:+ f_output data) (timestamp m) in
          if String.eqb (f_title data) "Error" then
            let m2 := mkMessage (role m1) (title m1 +:+ FailedSuffix)
                        (content m1) (timestamp m1) in
            Ok (<[length messages - 1 := m2]> messages, true)
          else
            Ok (<[length messages - 1 := m1]> messages, false)
      end.

(** ** The transcript updater of [getFix] (App.tsx 248-273) *)
Definition fix_updater (now : Date) (data : ForgeResponse)
    (prev : list Message) : result (list Message * bool) :=
  let messages := prev in
  let lastMessage := lastOf messages in
  if opt_eq (content <$> lastMessage) (f_output data)
     && opt_eq (title <$> lastMessage) (f_title data)
  then Ok (messages, false)
  else
    let isNewStep :=
      negb (opt_eq (title <$> lastMessage) (f_title data))
      && negb (String.eqb (f_title data) "Error") in
    if isNewStep then
      Ok (messages ++ [mkMessage ai (f_title data) (f_output data) now], false)
    else
      match lastMessage with
      | None => Throw TypeError
      | Some m =>
          let m1 := mkMessage (role m) (title m)
                      (content m +:+ f_output data) (timestamp m) in
          if String.eqb (f_title data) "Error" then
            let m2 := mkMessage (role m1) (title m1 +:+ FailedSuffix)
                        (content m1) (timestamp m1) in
            Ok (<[length messages - 1 := m2]> messages, true)
          else
            Ok (<[length messages - 1 := m1]> messages, false)
      end.

(** Folding one event, and a sequence of events in delivery order, into a
    transcript. *)
Definition fold1 (now : Date) (data : ForgeResponse) (t : list Message)
    : result (list Message) :=
  r ← query_updater now data t; Ok r.1.

Fixpoint foldAll (evs : list (Date * ForgeResponse)) (t : list Message)
    : result (list Message) :=
  match evs with
  | [] => Ok t
  | (now, data) :: rest => t' ← fold1 now data t; foldAll rest t'
  end.

(** ** The updater on object references

    [[...prev]] copies the array, not the entries: the new array holds the
    same [Message] objects, and [lastMessage.content += ...] writes into an
    object that [prev] also references.  Here an array is a list of
    references into a store of objects; the updater on values above is
    shown to describe the array this one returns. *)

Definition ref := positive.
Abbreviation store := (gmap ref Message).

Definition query_updater_ref (now : Date) (data : ForgeResponse)
    (prev : list ref) (h : store) : result (list ref * store * bool) :=
  let messages := prev in
  let lastRef := messages !! (length messages - 1) in
  let lastMessage := lastRef ≫= (h !!.) in
  if opt_eq (content <$> lastMessage) (f_output data)
     && opt_eq (title <$> lastMessage) (f_title data)
  then Ok (messages, h, false)
  else
    let isNewStep :=
      negb (opt_eq (title <$> lastMessage) (f_title data))
      && negb (String.eqb (f_title data) "Error") in
    if isNewStep then
      let r := fresh (dom h) in
      Ok (messages ++ [r],
          <[r := mkMessage ai (f_title data) (f_output data) now]> h, false)
    else
      match lastRef, lastMessage with
      | Some r, Some m =>
          let m1 := mkMessage (role m) (title m)
                      (content m +:+ f_output data) (timestamp m) in
          if String.eqb (f_title data) "Error" then
            let m2 := mkMessage (role m1) (title m1 +:+ FailedSuffix)
                        (content m1) (timestamp m1) in
            Ok (messages, <[r := m2]> h, true)
          else
            Ok (messages, <[r := m1]> h, false)
      | _, _ => Throw TypeError
      end.

(** The entries an array of references denotes in a store. *)
Definition denotes (h : store) (arr : list ref) (ms : list Message) : Prop :=
  Forall2 (λ r m, h !! r = Some m) arr ms.

(** ** Controller state ([useState] cells of [App])

    [queryOpen] and [fixOpen] record whether the event source opened by
    [query], respectively [getFix], has not been closed by its own handler. *)

Record AppState := mkApp {
  messages : list Message;
  transactions : list TransactionDetails;
  txCount : nat;
  tempDir : option string;
  queryOpen : bool;
  fixOpen : bool;
}.

Definition set_messages (ms : list Message) (st : AppState) : AppState :=
  mkApp ms (transactions st) (txCount st) (tempDir st) (queryOpen st) (fixOpen st).

Definition set_transactions (txs : list TransactionDetails) (st : AppState)
    : AppState :=
  mkApp (messages st) txs (txCount st) (tempDir st) (queryOpen st) (fixOpen st).

Definition set_txCount (n : nat) (st : AppState) : AppState :=
  mkApp (messages st) (transactions st) n (tempDir st) (queryOpen st) (fixOpen st).

Definition set_tempDir (d : option string) (st : AppState) : AppState :=
  mkApp (messages st) (transactions st) (txCount st) d (queryOpen st) (fixOpen st).

Definition set_queryOpen (b : bool) (st : AppState) : AppState :=
  mkApp (messages st) (transactions st) (txCount st) (tempDir st) b (fixOpen st).

Definition set_fixOpen (b : bool) (st : AppState) : AppState :=
  mkApp (messages st) (transactions st) (txCount st) (tempDir st) (queryOpen st) b.

(** [s.includes(pat)] *)
Fixpoint includes (s pat : string) : bool :=
  String.prefix pat s
  || match s with
     | EmptyString => false
     | String _ s' => includes s' pat
     end.

(** [query]: submission of the prompt (App.tsx 123-130, 145-150); the
    caller has checked that the prompt is not blank and a wallet is
    connected. *)
Definition query_submit (now : Date) (prompt : string) (st : AppState)
    : AppState :=
  set_queryOpen true
    (set_messages (messages st ++ [mkMessage user "Prompt" prompt now]) st).

(** [query]: the ['message'] listener (App.tsx 156-198), on the decoded
    event. *)
Definition query_onmessage (now : Date) (data : ForgeResponse) (st : AppState)
    : result AppState :=
  if String.eqb (f_title data) "Debug" then Ok st
  else if String.eqb (f_title data) "Session" then
    Ok (set_tempDir (Some (f_output data)) st)
  else
    r ← query_updater now data (messages st);
    Ok (set_queryOpen (queryOpen st && negb r.2) (set_messages r.1 st)).

(** [query]: the ['error'] listener (App.tsx 205-217).  [eventPhase] is
    the phase of the error event: [!error.eventPhase] holds for [0] only,
    and an event has phase [2] while it is dispatched to the listeners of
    its target. *)
Definition query_onerror (now : Date) (eventPhase : nat) (st : AppState)
    : AppState :=
  if Nat.eqb eventPhase 0 then
    set_queryOpen false
      (set_messages
         (messages st ++
            [mkMessage ai "Connection Error"
               "Lost connection to server. Please try again." now]) st)
  else st.

Fixpoint run_query (evs : list (Date * ForgeResponse)) (st : AppState)
    : result AppState :=
  match evs with
  | [] => Ok st
  | (now, data) :: rest => st' ← query_onmessage now data st; run_query rest st'
  end.

(** [tempDir || ""] *)
Definition or_empty (o : option string) : string :=
  match o with
  | Some s => if String.eqb s "" then "" else s
  | None => ""
  end.

(** The query parameters of the fix endpoint. *)
Record FixRequest := mkFixRequest {
  fx_error : string;
  fx_rpc_url : string;
  fx_temp_dir : string;
}.

(** [getFix] up to the opening of its event source (App.tsx 220-231):
    [None] is the early return. *)
Definition getFix (errorMessage : string) (st : AppState)
    : option (FixRequest * AppState) :=
  match lastOf (messages st) with
  | None => None
  | Some lastMessage =>
      if negb (includes (title lastMessage) "Failed") then None
      else
        Some (mkFixRequest errorMessage "http://ethereumreth:8545"
                (or_empty (tempDir st)),
              set_fixOpen true st)
  end.

Section FixStream.
(** [JSON.parse] on a transaction plan; [Throw SyntaxError] on malformed
    text. *)
Variable JSON_parse : string → result (list TransactionDetails).

(** [getFix]: [eventSource.onmessage] (App.tsx 233-274). *)
Definition fix_onmessage (now : Date) (data : ForgeResponse) (st : AppState)
    : result AppState :=
  if String.eqb (f_title data) "Debug" then Ok st
  else
    st1 ← (if String.eqb (f_title data) "Simulating Transactions" then
             if includes (f_output data) "[{" then
               txs ← JSON_parse (f_output data);
               Ok (set_transactions txs st)
             else Ok st
           else Ok st);
    r ← fix_updater now data (messages st1);
    Ok (set_fixOpen (fixOpen st1 && negb r.2) (set_messages r.1 st1)).

Fixpoint run_fix (evs : list (Date * ForgeResponse)) (st : AppState)
    : result AppState :=
  match evs with
  | [] => Ok st
  | (now, data) :: rest => st' ← fix_onmessage now data st; run_fix rest st'
  end.
End FixStream.

(** ** The transaction effect (App.tsx 295-351) *)

(** A non-negative integer in a string concatenation. *)
Definition show_nat (n : nat) : string :=
  NilEmpty.string_of_uint (Nat.to_uint n).

Definition nl : string := String (Ascii.ascii_of_nat 10) "".

(** First statement of [handleTransaction]: the entry asking for a
    signature.  [txCount] and [transactions] are the values of the render
    that ran the effect. *)
Definition handleTransaction_begin (now : Date)
    (transaction : TransactionDetails) (st : AppState) : AppState :=
  set_messages
    (messages st ++
       [mkMessage ai
          (function transaction +:+ " " +:+ show_nat (txCount st) +:+ "/"
             +:+ show_nat (length (transactions st)))
          ("Please sign this transaction:" +:+ nl +:+ nl
             +:+ "To: " +:+ to transaction +:+ nl
             +:+ "Function: " +:+ function transaction +:+ nl
             +:+ "Arguments: " +:+ String.concat ", " (arguments transaction)
             +:+ nl
             +:+ "Value: " +:+ value transaction +:+ " ETH")
          now])
    st.

(** The [try] block after the provider resolved; [hash] is the text of
    [result.hash].  The three state updates land in one render. *)
Definition handleTransaction_then (now : Date) (hash : string) (st : AppState)
    : AppState :=
  let st1 :=
    set_messages
      (messages st ++
         [mkMessage ai "Transaction" ("Transaction sent! Hash: " +:+ hash) now])
      st in
  let st2 := set_transactions (drop 1 (transactions st1)) st1 in
  set_txCount (txCount st2 + 1) st2.

(** The [catch] block; [e_message] is the text of [e.message].
    ["\n" + e.message || ...] parses as [("\n" + e.message) || ...], whose
    left operand is never empty. *)
Definition handleTransaction_catch (e_message : string) (st : AppState)
    : result AppState :=
  let newMessages := messages st in
  match lastOf newMessages with
  | None => Throw TypeError
  | Some lastMessage =>
      let m1 :=
        if String.eqb (title lastMessage) "Transaction"
        then mkMessage (role lastMessage) (title lastMessage +:+ FailedSuffix)
               (content lastMessage) (timestamp lastMessage)
        else lastMessage in
      let m2 := mkMessage (role m1) (title m1)
                  (content m1 +:+ (nl +:+ e_message)) (timestamp m1) in
      Ok (set_messages (<[length newMessages - 1 := m2]> newMessages) st)
  end.

(** Outcome of the wallet provider for one submission. *)
Inductive ProviderOutcome :=
| Sent (hash : string)
| Rejected (e_message : string).

(** One run of the effect body: nothing when the queue is empty, else
    [handleTransaction(transactions[0])] up to the settlement of the
    provider call; [now] and [settled] are the two readings of the
    clock. *)
Definition effect_run (now settled : Date) (outcome : ProviderOutcome)
    (st : AppState) : result AppState :=
  match transactions st with
  | [] => Ok st
  | transaction :: _ =>
      let st1 := handleTransaction_begin now transaction st in
      match outcome with
      | Sent hash => Ok (handleTransaction_then settled hash st1)
      | Rejected e_message => handleTransaction_catch e_message st1
      end
  end.

(** The effect re-runs when [transactions] is replaced, that is after each
    successful submission; a failed one leaves the dependency untouched. *)
Fixpoint effect_loop (runs : list (Date * Date * ProviderOutcome))
    (st : AppState) : result AppState :=
  match runs with
  | [] => Ok st
  | (now, settled, Sent hash) :: rest =>
      st' ← effect_run now settled (Sent hash) st; effect_loop rest st'
  | (now, settled, Rejected e_message) :: _ =>
      effect_run now settled (Rejected e_message) st
  end.

(** ** The controller as a transition system

    Every place of App.tsx that calls [setMessages], [setTransactions],
    [setTxCount] or [setTempDir] is one of these events.  [EffectRun] is a
    run of the effect whose provider call settles before anything else
    happens; [TxBegin], [TxThen] and [TxCatch] are its three parts, for
    the runs in which other events arrive while the provider call is
    awaited. *)

Inductive Event :=
| Submit (now : Date) (prompt : string)
| QueryMessage (now : Date) (data : ForgeResponse)
| QueryError (now : Date) (eventPhase : nat)
| FixRequested (errorMessage : string)
| FixMessage (now : Date) (data : ForgeResponse)
| EffectRun (now settled : Date) (outcome : ProviderOutcome)
| TxBegin (now : Date)
| TxThen (settled : Date) (hash : string)
| TxCatch (e_message : string).

Definition initial : AppState := mkApp [] [] 0 None false false.

Section Controller.
Variable JSON_parse : string → result (list TransactionDetails).

Definition step (ev : Event) (st : AppState) : result AppState :=
  match ev with
  | Submit now prompt => Ok (query_submit now prompt st)
  | QueryMessage now data => query_onmessage now data st
  | QueryError now eventPhase => Ok (query_onerror now eventPhase st)
  | FixRequested errorMessage =>
      match getFix errorMessage st with
      | Some (_, st') => Ok st'
      | None => Ok st
      end
  | FixMessage now data => fix_onmessage JSON_parse now data st
  | EffectRun now settled outcome => effect_run now settled outcome st
  | TxBegin now =>
      match transactions st with
      | [] => Ok st
      | transaction :: _ => Ok (handleTransaction_begin now transaction st)
      end
  | TxThen settled hash => Ok (handleTransaction_then settled hash st)
  | TxCatch e_message => handleTransaction_catch e_message st
  end.

Inductive Reachable : AppState → Prop :=
| reach_initial : Reachable initial
| reach_step ev st st' :
    Reachable st → step ev st = Ok st' → Reachable st'.

(** A sequence of events, stopping at the first one whose handler
    throws. *)
Fixpoint run (evs : list Event) (st : AppState) : result AppState :=
  match evs with
  | [] => Ok st
  | ev :: rest => st' ← step ev st; run rest st'
  end.
End Controller.

(** ** [useEventSourceWithRetry] (App.tsx 54-89)

    [retryCount] is a JavaScript number that only ever holds a small
    non-negative integer; it is modelled in [Z]. *)
Module Retry.

Record Hook := mkHook {
  retryCount : Z;
  (** delay of the [setTimeout(connect, _)] that has not fired yet *)
  pending : option Z;
  (** the current [eventSource] is open *)
  sourceOpen : bool;
  (** delays passed to [setTimeout] so far, oldest first *)
  scheduled : list Z;
  (** number of calls of [options.onError] so far *)
  onErrorCalls : nat;
}.

Definition init : Hook := mkHook 0 None false [] 0.

(** [!options.maxRetries]: [undefined] and [0] are falsy. *)
Definition not_maxRetries (maxRetries : option Z) : bool :=
  match maxRetries with
  | None => true
  | Some n => (n =? 0)%Z
  end.

(** [retryCount < options.maxRetries] *)
Definition below (retryCount : Z) (maxRetries : option Z) : bool :=
  match maxRetries with
  | None => false
  | Some n => (retryCount <? n)%Z
  end.

(** [connect]: runs on mount and when a timer fires. *)
Definition connect (h : Hook) : Hook :=
  mkHook (retryCount h) None true (scheduled h) (onErrorCalls h).

(** [eventSource.onerror] *)
Definition onerror (maxRetries : option Z) (h : Hook) : Hook :=
  if not_maxRetries maxRetries || below (retryCount h) maxRetries then
    let retryCount' := (retryCount h + 1)%Z in
    mkHook retryCount' (Some (1000 * retryCount')%Z) false
      (scheduled h ++ [(1000 * retryCount')%Z]) (onErrorCalls h)
  else
    mkHook (retryCount h) None false (scheduled h) (S (onErrorCalls h)).

(** A server that refuses every connection: each [connect] is answered
    by one error event, and a pending timer then fires.  [attempts]
    bounds the number of connections observed. *)
Fixpoint always_failing (attempts : nat) (maxRetries : option Z) (h : Hook)
    : Hook :=
  match attempts with
  | 0 => h
  | S n =>
      let h1 := onerror maxRetries (connect h) in
      match pending h1 with
      | Some _ => always_failing n maxRetries h1
      | None => h1
      end
  end.

(** The cleanup returned by the effect: [eventSource?.close()].  It does
    not call [clearTimeout]. *)
Definition cleanup (h : Hook) : Hook :=
  mkHook (retryCount h) (pending h) false (scheduled h) (onErrorCalls h).

(** What can happen to a mounted hook.  An [EventSource] that was closed
    dispatches nothing, so an error or a message only arrives while the
    source is open; [options.onMessage] does not touch the hook. *)
Inductive Signal :=
| ErrorSignal
| MessageSignal
| TimerSignal
| Unmount.

Definition react (maxRetries : option Z) (s : Signal) (h : Hook) : Hook :=
  match s with
  | ErrorSignal => if sourceOpen h then onerror maxRetries h else h
  | MessageSignal => h
  | TimerSignal =>
      match pending h with
      | Some _ => connect h
      | None => h
      end
  | Unmount => cleanup h
  end.

(** The hook after mounting ([connect()]) and a sequence of signals. *)
Definition after (maxRetries : option Z) (signals : list Signal) : Hook :=
  foldl (λ h s, react maxRetries s h) (connect init) signals.

(** Sum of the delays waited so far. *)
Definition total_delay (h : Hook) : Z := foldr Z.add 0%Z (scheduled h).

(** The delays [1000, 2000, ..., n*1000]. *)
Definition backoff (n : nat) : list Z :=
  (λ k, (1000 * Z.of_nat k)%Z) <$> seq 1 n.

End Retry.

(** ** Vocabulary of the statements *)

(** The entry left by an effective ["Error"] event on entry [m]. *)
Definition failed (m : Message) (output : string) : Message :=
  mkMessage (role m) (title m +:+ FailedSuffix) (content m +:+ output)
    (timestamp m).

(** The entry left by an append of [output] to entry [m]. *)
Definition appended (m : Message) (output : string) : Message :=
  mkMessage (role m) (title m) (content m +:+ output) (timestamp m).

(** Content of an entry after one more fragment of its own step: the
    guard drops a fragment equal to the whole content so far. *)
Definition absorb (acc output : string) : string :=
  if String.eqb acc output then acc else acc +:+ output.

Definition outputs (evs : list (Date * ForgeResponse)) : list string :=
  (λ e, f_output e.2) <$> evs.

(** No fragment equals the content accumulated before it. *)
Fixpoint fresh_fragments (acc : string) (outs : list string) : bool :=
  match outs with
  | [] => true
  | o :: rest => negb (String.eqb acc o) && fresh_fragments (acc +:+ o) rest
  end.

(** The events for which a second, immediate delivery changes nothing. *)
Definition replay_safe (t : list Message) (data : ForgeResponse) : bool :=
  match lastOf t with
  | None => true
  | Some m =>
      if String.eqb (title m) (f_title data) then
        String.eqb (content m) (f_output data)
        || negb (String.eqb (f_title data) "Error")
           && (String.eqb (content m) "" || String.eqb (f_output data) "")
      else negb (String.eqb (f_title data) "Error")
  end.

(** Outputs of the ["Session"] events of a stream, in delivery order. *)
Definition sessions (evs : list (Date * ForgeResponse)) : list string :=
  outputs (filter (λ e, f_title e.2 = "Session") evs).

(** Title and content of the entry that asks for a signature. *)
Definition pendingTitle (transaction : TransactionDetails)
    (count remaining : nat) : string :=
  function transaction +:+ " " +:+ show_nat count +:+ "/"
    +:+ show_nat remaining.

Definition pendingContent (transaction : TransactionDetails) : string :=
  "Please sign this transaction:" +:+ nl +:+ nl
    +:+ "To: " +:+ to transaction +:+ nl
    +:+ "Function: " +:+ function transaction +:+ nl
    +:+ "Arguments: " +:+ String.concat ", " (arguments transaction) +:+ nl
    +:+ "Value: " +:+ value transaction +:+ " ETH".

(** A submission that the provider accepted. *)
Definition sent (r : Date * Date * string) : Date * Date * ProviderOutcome :=
  (r.1.1, r.1.2, Sent r.2).

(** A string without a space character. *)
Fixpoint no_space (s : string) : bool :=
  match s with
  | EmptyString => true
  | String c s' => negb (Ascii.eqb c Ascii.Space) && no_space s'
  end.

(** A plan of one transaction as it travels in an event's output. *)
Definition dq : string := String (Ascii.ascii_of_nat 34) "".

Definition json_field (key val : string) : string :=
  dq +:+ key +:+ dq +:+ ":" +:+ dq +:+ val +:+ dq.

Definition plan_json : string :=
  "[{" +:+ json_field "to" "0xB" +:+ ","
    +:+ json_field "function" "transfer" +:+ ","
    +:+ dq +:+ "arguments" +:+ dq +:+ ":[],"
    +:+ json_field "value" "0" +:+ ","
    +:+ json_field "input_data" "0x02" +:+ "}]".

(** An entry named like the reserved failure label. *)
Definition titled_Error (m : Message) : Prop := title m = "Error".

(** An entry and a later version of it: same role and creation time,
    title and content extended on the right. *)
Definition entry_grows (m m' : Message) : Prop :=
  role m' = role m
  ∧ timestamp m' = timestamp m
  ∧ (∃ s, title m' = title m +:+ s)
  ∧ (∃ s, content m' = content m +:+ s).

(** A transcript and a later version of it: the old entries, each
    possibly grown, in the same order, followed by new ones. *)
Definition transcript_grows (t t' : list Message) : Prop :=
  ∃ t0 added, Forall2 entry_grows t t0 ∧ t' = t0 ++ added.

(** The entries a plan leaves in the transcript when every submission is
    accepted: per transaction, the request for a signature and the
    report of the hash. *)
Fixpoint sent_entries (count : nat) (plan : list TransactionDetails)
    (runs : list (Date * Date * string)) : list Message :=
  match plan, runs with
  | transaction :: plan', (now, settled, hash) :: runs' =>
      mkMessage ai (pendingTitle transaction count (length plan))
        (pendingContent transaction) now
      :: mkMessage ai "Transaction" ("Transaction sent! Hash: " +:+ hash)
           settled
      :: sent_entries (count + 1) plan' runs'
  | _, _ => []
  end.

(** The events in which a submission was accepted. *)
Definition accepted (ev : Event) : bool :=
  match ev with
  | EffectRun _ _ (Sent _) => true
  | TxThen _ _ => true
  | _ => false
  end.

(** What holds of a hook with cap [n >= 1] whatever happens to it. *)
Definition hook_ok (n : nat) (h : Retry.Hook) : Prop :=
  Retry.retryCount h = Z.of_nat (length (Retry.scheduled h))
  ∧ Retry.scheduled h = Retry.backoff (length (Retry.scheduled h))
  ∧ length (Retry.scheduled h) ≤ n
  ∧ Retry.onErrorCalls h ≤ 1
  ∧ (Retry.onErrorCalls h = 1 →
     length (Retry.scheduled h) = n
     ∧ Retry.pending h = None ∧ Retry.sourceOpen h = false).

(** [k] copies of the failure marker. *)
Fixpoint markers (k : nat) : string :=
  match k with
  | 0 => ""
  | S k' => FailedSuffix +:+ markers k'
  end.

(** The schedule of a server that refuses every connection, seen by a
    mounted hook: each round is the error of the source that is open,
    then the expiry of the timer that error has set. *)
Fixpoint failing_rounds (k : nat) : list Retry.Signal :=
  match k with
  | 0 => []
  | S k' => Retry.ErrorSignal :: Retry.TimerSignal :: failing_rounds k'
  end.

(** * Properties *)

(** ** Strings *)

Lemma str_app_cons (c : Ascii.ascii) (a b : string) :
  String c a +:+ b = String c (a +:+ b).
Proof. reflexivity. Qed.

Lemma str_length_app (a b : string) :
  String.length (a +:+ b) = String.length a + String.length b.
Proof.
  induction a as [|c a IH]; [done |].
  rewrite str_app_cons. simpl. by rewrite IH.
Qed.

Lemma str_app_empty_r (a : string) : a +:+ "" = a.
Proof.
  induction a as [|c a IH]; [done |]. by rewrite str_app_cons, IH.
Qed.

Lemma str_app_assoc (a b c : string) : (a +:+ b) +:+ c = a +:+ (b +:+ c).
Proof.
  induction a as [|x a IH]; [done |]. by rewrite !str_app_cons, IH.
Qed.

Lemma str_length_0 (a : string) : String.length a = 0 → a = "".
Proof. by destruct a. Qed.

(** Appending on the left gives back the right operand only for the empty
    string. *)
Lemma str_app_eq_r (a b : string) : a +:+ b = b → a = "".
Proof.
  intros H. apply str_length_0.
  apply (f_equal String.length) in H. rewrite str_length_app in H. lia.
Qed.

Lemma str_app_eq_l (a b : string) : a +:+ b = a → b = "".
Proof.
  intros H. apply str_length_0.
  apply (f_equal String.length) in H. rewrite str_length_app in H. lia.
Qed.

Lemma failed_suffix_changes (t : string) : t +:+ FailedSuffix ≠ t.
Proof. intros H. by apply str_app_eq_l in H. Qed.

Lemma failed_suffix_not_Error (t : string) : t +:+ FailedSuffix ≠ "Error".
Proof.
  intros H. apply (f_equal String.length) in H.
  rewrite str_length_app in H. simpl in H. lia.
Qed.

Lemma eqb_failed_Error (t : string) :
  String.eqb (t +:+ FailedSuffix) "Error" = false.
Proof. apply String.eqb_neq, failed_suffix_not_Error. Qed.

(** ** The last element of an array *)

Lemma lastOf_nil : lastOf [] = None.
Proof. done. Qed.

Lemma lastOf_snoc (l : list Message) (m : Message) : lastOf (l ++ [m]) = Some m.
Proof.
  unfold lastOf. rewrite length_app. simpl.
  replace (length l + 1 - 1) with (length l + 0) by lia.
  by rewrite lookup_app_r, Nat.add_0_r, Nat.sub_diag by lia.
Qed.

Lemma lastOf_inv (l : list Message) (m : Message) :
  lastOf l = Some m → ∃ l', l = l' ++ [m].
Proof.
  destruct l as [|x l _] using rev_ind; [done |].
  rewrite lastOf_snoc. intros [= ->]. by exists l.
Qed.

Lemma lastOf_None (l : list Message) : lastOf l = None → l = [].
Proof.
  destruct l as [|x l _] using rev_ind; [done |]. by rewrite lastOf_snoc.
Qed.

Lemma set_last_snoc (l : list Message) (m x : Message) :
  <[length (l ++ [m]) - 1 := x]> (l ++ [m]) = l ++ [x].
Proof.
  rewrite length_app. simpl.
  replace (length l + 1 - 1) with (length l + 0) by lia.
  by rewrite insert_app_r.
Qed.

(** ** The two copies of the updater agree *)

Lemma fix_updater_eq now data prev :
  fix_updater now data prev = query_updater now data prev.
Proof. reflexivity. Qed.

(** The updater by cases on the last entry. *)
Lemma updater_nil now data :
  query_updater now data [] =
    if String.eqb (f_title data) "Error" then Throw TypeError
    else Ok ([mkMessage ai (f_title data) (f_output data) now], false).
Proof.
  unfold query_updater. simpl. by destruct (String.eqb (f_title data) "Error").
Qed.

Lemma updater_snoc now data l m :
  query_updater now data (l ++ [m]) =
    if String.eqb (content m) (f_output data)
       && String.eqb (title m) (f_title data)
    then Ok (l ++ [m], false)
    else if negb (String.eqb (title m) (f_title data))
            && negb (String.eqb (f_title data) "Error")
    then Ok (l ++ [m; mkMessage ai (f_title data) (f_output data) now], false)
    else if String.eqb (f_title data) "Error"
    then Ok (l ++ [failed m (f_output data)], true)
    else Ok (l ++ [appended m (f_output data)], false).
Proof.
  unfold query_updater. rewrite lastOf_snoc. simpl.
  destruct (_ && _); [done |].
  destruct (_ && _); [by rewrite <- (assoc_L (++)) |].
  rewrite !set_last_snoc. by destruct (String.eqb (f_title data) "Error").
Qed.

(** ** Error events *)

(** C10: folding an ["Error"] event into an empty transcript throws: the
    append branch is taken and reads [content] of a missing last entry;
    neither an entry is created nor the transcript returned unchanged.
    The updater of the fix stream has the same unguarded access. *)
Theorem error_on_empty_transcript_throws (now : Date) (output : string) :
  query_updater now (mkForge "Error" output) [] = Throw TypeError
  ∧ fix_updater now (mkForge "Error" output) [] = Throw TypeError
  ∧ fold1 now (mkForge "Error" output) [] = Throw TypeError.
Proof. repeat split; reflexivity. Qed.

Lemma query_onmessage_error_empty now output txs n d q f :
  query_onmessage now (mkForge "Error" output) (mkApp [] txs n d q f)
  = Throw TypeError.
Proof. reflexivity. Qed.

Lemma fix_onmessage_error_empty parse now output txs n d q f :
  fix_onmessage parse now (mkForge "Error" output) (mkApp [] txs n d q f)
  = Throw TypeError.
Proof. reflexivity. Qed.

(** On a non-empty transcript the updater never throws. *)
Lemma updater_total now data t m :
  lastOf t = Some m → ∃ r, query_updater now data t = Ok r.
Proof.
  intros [l ->]%lastOf_inv. rewrite updater_snoc.
  repeat (destruct (_ : bool); eauto).
Qed.

Lemma updater_error_cases now output t m :
  lastOf t = Some m →
  query_updater now (mkForge "Error" output) t =
    Ok (if bool_decide (title m = "Error" ∧ content m = output)
        then (t, false)
        else (<[length t - 1 := failed m output]> t, true)).
Proof.
  intros [l ->]%lastOf_inv. rewrite updater_snoc, set_last_snoc. simpl.
  destruct (String.eqb_spec (content m) output) as [Hc|Hc];
    destruct (String.eqb_spec (title m) "Error") as [Ht|Ht]; simpl.
  - by rewrite bool_decide_true.
  - rewrite bool_decide_false; [done | intros [? ?]; congruence].
  - rewrite bool_decide_false; [done | intros [? ?]; congruence].
  - rewrite bool_decide_false; [done | intros [? ?]; congruence].
Qed.

(** The updater on an ["Error"] event and an arbitrary non-empty array
    of entries: it never adds an entry.  It appends its output to the
    last entry's content and suffixes that entry's title with the failure
    marker, unless the last entry is itself titled ["Error"] with a
    content equal to the event's output: the guard then returns the array
    unchanged. *)
Theorem error_event_absorbed (now : Date) (output : string)
    (t : list Message) (m : Message) :
  lastOf t = Some m →
  query_updater now (mkForge "Error" output) t =
    Ok (if bool_decide (title m = "Error" ∧ content m = output)
        then (t, false)
        else (<[length t - 1 := failed m output]> t, true))
  ∧ ∀ r, query_updater now (mkForge "Error" output) t = Ok r →
         length r.1 = length t.
Proof.
  intros Hm. rewrite (updater_error_cases now output t m Hm). split; [done |].
  intros r. case_bool_decide; intros [= <-]; simpl;
    [done | by rewrite length_insert].
Qed.

Lemma error_event_absorbed_witness :
  query_updater 9%Z (mkForge "Error" " reverted")
    [mkMessage ai "swap" "Calculating" 5%Z]
  = Ok ([mkMessage ai "swap (Failed)" "Calculating reverted" 5%Z], true).
Proof.
  exact (proj1 (error_event_absorbed 9%Z " reverted"
                  [mkMessage ai "swap" "Calculating" 5%Z]
                  (mkMessage ai "swap" "Calculating" 5%Z) eq_refl)).
Defined.

(** The guard on an entry titled ["Error"] that holds exactly the event's
    output, an entry the controller never builds: nothing is appended and
    no marker added. *)
Lemma error_guard_on_Error_titled_entry :
  query_updater 1%Z (mkForge "Error" "boom") [mkMessage ai "Error" "boom" 0%Z]
    = Ok ([mkMessage ai "Error" "boom" 0%Z], false)
  ∧ query_updater 1%Z (mkForge "Error" "boom") [mkMessage ai "Error" "boom" 0%Z]
    ≠ Ok ([failed (mkMessage ai "Error" "boom" 0%Z) "boom"], true).
Proof. split; [reflexivity | discriminate]. Qed.

(** ** Duplicate deliveries *)

Lemma fold1_nil now data :
  fold1 now data [] =
    if String.eqb (f_title data) "Error" then Throw TypeError
    else Ok [mkMessage ai (f_title data) (f_output data) now].
Proof.
  unfold fold1. rewrite updater_nil.
  by destruct (String.eqb (f_title data) "Error").
Qed.

Lemma fold1_snoc now data l m :
  fold1 now data (l ++ [m]) =
    Ok (if String.eqb (content m) (f_output data)
           && String.eqb (title m) (f_title data)
        then l ++ [m]
        else if negb (String.eqb (title m) (f_title data))
                && negb (String.eqb (f_title data) "Error")
        then l ++ [m; mkMessage ai (f_title data) (f_output data) now]
        else if String.eqb (f_title data) "Error"
        then l ++ [failed m (f_output data)]
        else l ++ [appended m (f_output data)]).
Proof.
  unfold fold1. rewrite updater_snoc.
  repeat (destruct (_ : bool); try done).
Qed.

(** A second delivery right after the first is always absorbed when the
    first one started an entry. *)
Lemma fold1_new_entry_replay now now' data l :
  fold1 now' data (l ++ [mkMessage ai (f_title data) (f_output data) now])
  = Ok (l ++ [mkMessage ai (f_title data) (f_output data) now]).
Proof. rewrite fold1_snoc. simpl. by rewrite !String.eqb_refl. Qed.


(** C2 (amended): after a fold that succeeded, folding the same event
    again returns the same transcript if and only if the first fold
    started a new entry, or was itself absorbed by the guard, or appended
    under a title other than ["Error"] with an empty prior content or an
    empty output.  Every other append, and every effective ["Error"]
    event, is applied a second time. *)
Theorem duplicate_delivery (now now' : Date) (data : ForgeResponse)
    (t t1 : list Message) :
  fold1 now data t = Ok t1 →
  fold1 now' data t1 = Ok t1 ↔ replay_safe t data = true.
Proof.
  destruct data as [ttl out].
  destruct t as [|m l _] using rev_ind.
  - rewrite fold1_nil. simpl.
    destruct (String.eqb ttl "Error"); [done |]. intros [= <-].
    split; [done | intros _].
    apply (fold1_new_entry_replay now now' (mkForge ttl out) []).
  - rewrite fold1_snoc. unfold replay_safe. rewrite lastOf_snoc. simpl.
    destruct m as [r mt mc ts]. simpl.
    destruct (String.eqb_spec mt ttl) as [->|Ht]; simpl.
    + destruct (String.eqb_spec mc out) as [->|Hc]; simpl.
      * intros [= <-]. rewrite fold1_snoc. simpl. by rewrite !String.eqb_refl.
      * destruct (String.eqb_spec ttl "Error") as [->|He]; simpl.
        -- intros [= <-]. rewrite fold1_snoc. unfold failed. simpl.
           rewrite andb_false_r. simpl.
           split; [| done]. intros [= H%app_inv_head]. injection H as H _.
           by apply failed_suffix_changes in H.
        -- intros [= <-]. rewrite fold1_snoc. unfold appended. simpl.
           rewrite String.eqb_refl, andb_true_r. simpl.
           destruct (String.eqb_spec ttl "Error"); [done |]. simpl.
           destruct (String.eqb_spec (mc +:+ out) out) as [Hg|Hg].
           ++ apply str_app_eq_r in Hg as ->. simpl. done.
           ++ destruct (String.eqb_spec mc "") as [->|Hmc]; [done |]. simpl.
              destruct (String.eqb_spec out "") as [->|Ho].
              ** by rewrite !str_app_empty_r.
              ** split; [| done].
                 intros [= H%app_inv_head]. injection H as H.
                 by apply str_app_eq_l in H.
    + destruct (String.eqb_spec ttl "Error") as [->|He]; simpl.
      * rewrite andb_false_r. intros [= <-]. rewrite fold1_snoc.
        unfold failed. simpl. rewrite !eqb_failed_Error, andb_false_r. simpl.
        split; [| done]. intros [= H%app_inv_head]. injection H as H _.
        by apply failed_suffix_changes in H.
      * rewrite andb_false_r. intros [= <-].
        split; [done | intros _].
        rewrite (cons_middle _ l), (assoc_L (++)).
        apply (fold1_new_entry_replay now now' (mkForge ttl out)).
Qed.

Lemma duplicate_delivery_witness :
  fold1 2%Z (mkForge "swap" "Calculating")
    [mkMessage user "Prompt" "swap 1 ETH" 0%Z;
     mkMessage ai "swap" "Calculating" 1%Z]
  = Ok [mkMessage user "Prompt" "swap 1 ETH" 0%Z;
        mkMessage ai "swap" "Calculating" 1%Z].
Proof.
  apply (duplicate_delivery 1%Z 2%Z (mkForge "swap" "Calculating")
           [mkMessage user "Prompt" "swap 1 ETH" 0%Z]);
    reflexivity.
Defined.

(** C2 as stated fails for an append to an existing step: the second
    delivery of the fragment is appended again. *)
Lemma duplicate_append_counterexample :
  fold1 1%Z (mkForge "swap" " route") [mkMessage ai "swap" "Calculating" 0%Z]
    = Ok [mkMessage ai "swap" "Calculating route" 0%Z]
  ∧ fold1 2%Z (mkForge "swap" " route")
      [mkMessage ai "swap" "Calculating route" 0%Z]
    = Ok [mkMessage ai "swap" "Calculating route route" 0%Z]
  ∧ fold1 2%Z (mkForge "swap" " route")
      [mkMessage ai "swap" "Calculating route" 0%Z]
    ≠ Ok [mkMessage ai "swap" "Calculating route" 0%Z].
Proof. split; [reflexivity | split; [reflexivity | discriminate]]. Qed.

(** ** Grouping of the fragments of one step *)

Lemma concat_empty_cons (o : string) (outs : list string) :
  String.concat "" (o :: outs) = o +:+ String.concat "" outs.
Proof. destruct outs; simpl; [by rewrite str_app_empty_r | done]. Qed.

Lemma absorb_fresh (outs : list string) (acc : string) :
  fresh_fragments acc outs = true →
  fold_left absorb outs acc = acc +:+ String.concat "" outs.
Proof.
  revert acc. induction outs as [|o outs IH]; intros acc Hfresh.
  - simpl. by rewrite str_app_empty_r.
  - simpl in Hfresh. apply andb_true_iff in Hfresh as [Hne Hrest].
    rewrite concat_empty_cons. cbn [fold_left]. unfold absorb at 2.
    apply negb_true_iff in Hne. rewrite Hne, (IH _ Hrest).
    apply str_app_assoc.
Qed.

(** Fragments arriving under the title of the last entry all land in that
    entry. *)
Lemma foldAll_same_title (ttl : string) (rest : list (Date * ForgeResponse)) :
  ttl ≠ "Error" →
  Forall (λ e, f_title e.2 = ttl) rest →
  ∀ l r c ts,
    foldAll rest (l ++ [mkMessage r ttl c ts])
    = Ok (l ++ [mkMessage r ttl (fold_left absorb (outputs rest) c) ts]).
Proof.
  intros HnE. induction 1 as [|[now [ttl' out]] rest Ht _ IH]; intros l r c ts.
  - done.
  - simpl in Ht. subst ttl'. cbn [foldAll]. rewrite fold1_snoc.
    cbn [mbind result_bind title content f_title f_output].
    rewrite String.eqb_refl, andb_true_r. simpl.
    apply String.eqb_neq in HnE as ->. unfold absorb at 2.
    destruct (String.eqb c out); apply IH.
Qed.

(** The first fragment of a step opens an entry. *)
Lemma fold1_new_step now data t :
  f_title data ≠ "Error" →
  title <$> lastOf t ≠ Some (f_title data) →
  fold1 now data t = Ok (t ++ [mkMessage ai (f_title data) (f_output data) now]).
Proof.
  intros HnE%String.eqb_neq Hlast.
  destruct t as [|m l _] using rev_ind.
  - by rewrite fold1_nil, HnE.
  - rewrite lastOf_snoc in Hlast. simpl in Hlast. rewrite fold1_snoc, HnE.
    assert (String.eqb (title m) (f_title data) = false) as ->
      by (apply String.eqb_neq; congruence).
    rewrite andb_false_r. simpl. by rewrite <- (assoc_L (++)).
Qed.

Lemma grouping_by_absorb ttl now0 o0 rest t :
  ttl ≠ "Error" →
  title <$> lastOf t ≠ Some ttl →
  Forall (λ e, f_title e.2 = ttl) rest →
  foldAll ((now0, mkForge ttl o0) :: rest) t
  = Ok (t ++ [mkMessage ai ttl (fold_left absorb (outputs rest) o0) now0]).
Proof.
  intros HnE Hlast Hrest. cbn [foldAll].
  rewrite (fold1_new_step now0 (mkForge ttl o0) t HnE Hlast).
  apply (foldAll_same_title ttl rest HnE Hrest).
Qed.

(** C1 (amended): a non-empty sequence of events sharing one title other
    than ["Error"], in which no fragment after the first equals the content
    accumulated before it, folded in order into a transcript that is empty
    or whose last entry has another title, adds exactly one entry; its
    content is the concatenation of the outputs in delivery order. *)
Theorem step_grouping (ttl : string) (now0 : Date) (o0 : string)
    (rest : list (Date * ForgeResponse)) (t : list Message) :
  ttl ≠ "Error" →
  title <$> lastOf t ≠ Some ttl →
  Forall (λ e, f_title e.2 = ttl) rest →
  fresh_fragments o0 (outputs rest) = true →
  foldAll ((now0, mkForge ttl o0) :: rest) t
  = Ok (t ++ [mkMessage ai ttl
                (String.concat "" (outputs ((now0, mkForge ttl o0) :: rest)))
                now0]).
Proof.
  intros HnE Hlast Hrest Hfresh.
  rewrite (grouping_by_absorb ttl now0 o0 rest t HnE Hlast Hrest).
  rewrite (absorb_fresh _ _ Hfresh).
  unfold outputs at 2. rewrite fmap_cons. fold (outputs rest).
  by rewrite concat_empty_cons.
Qed.

Lemma step_grouping_witness :
  foldAll [(1%Z, mkForge "swap" "Calculating"); (2%Z, mkForge "swap" " route")]
    [mkMessage user "Prompt" "swap 1 ETH for USDC" 0%Z]
  = Ok [mkMessage user "Prompt" "swap 1 ETH for USDC" 0%Z;
        mkMessage ai "swap" "Calculating route" 1%Z].
Proof.
  apply (step_grouping "swap" 1%Z "Calculating" [(2%Z, mkForge "swap" " route")]
           [mkMessage user "Prompt" "swap 1 ETH for USDC" 0%Z]).
  - discriminate.
  - discriminate.
  - repeat constructor.
  - reflexivity.
Defined.

(** C1 as stated fails when a fragment repeats the content so far: the
    guard drops it, and the entry holds less than the concatenation. *)
Lemma step_grouping_counterexample :
  foldAll [(1%Z, mkForge "swap" "ab"); (2%Z, mkForge "swap" "ab")]
    [mkMessage user "Prompt" "go" 0%Z]
  = Ok [mkMessage user "Prompt" "go" 0%Z; mkMessage ai "swap" "ab" 1%Z]
  ∧ String.concat ""
      (outputs [(1%Z, mkForge "swap" "ab"); (2%Z, mkForge "swap" "ab")])
    = "abab".
Proof. split; reflexivity. Qed.

(** ** The retrying event source *)

Module RetryFacts.
Import Retry.

Lemma backoff_S (k : nat) :
  backoff (S k) = backoff k ++ [(1000 * Z.of_nat (S k))%Z].
Proof. unfold backoff. by rewrite seq_S, fmap_app. Qed.

Lemma length_backoff (k : nat) : length (backoff k) = k.
Proof. unfold backoff. by rewrite length_fmap, length_seq. Qed.

Lemma backoff_lookup (n k : nat) :
  k < n → backoff n !! k = Some (1000 * Z.of_nat (S k))%Z.
Proof.
  intros Hk. unfold backoff. rewrite list_lookup_fmap, lookup_seq_lt by done.
  done.
Qed.

(** With a cap [n >= 1], a failure below the cap schedules a retry. *)
Lemma onerror_below (n k : nat) p o sch c :
  k < n →
  onerror (Some (Z.of_nat n)) (mkHook (Z.of_nat k) p o sch c)
  = mkHook (Z.of_nat (S k)) (Some (1000 * Z.of_nat (S k))%Z) false
      (sch ++ [(1000 * Z.of_nat (S k))%Z]) c.
Proof.
  intros Hk. unfold onerror, not_maxRetries, below. simpl.
  replace (Z.of_nat n =? 0)%Z with false by (symmetry; apply Z.eqb_neq; lia).
  replace (Z.of_nat k <? Z.of_nat n)%Z with true
    by (symmetry; apply Z.ltb_lt; lia).
  simpl. by replace (Z.of_nat k + 1)%Z with (Z.of_nat (S k)) by lia.
Qed.

(** At the cap, a failure calls [options.onError] and schedules
    nothing. *)
Lemma onerror_at_cap (n : nat) p o sch c :
  1 ≤ n →
  onerror (Some (Z.of_nat n)) (mkHook (Z.of_nat n) p o sch c)
  = mkHook (Z.of_nat n) None false sch (S c).
Proof.
  intros Hn. unfold onerror, not_maxRetries, below. simpl.
  replace (Z.of_nat n =? 0)%Z with false by (symmetry; apply Z.eqb_neq; lia).
  by rewrite Z.ltb_irrefl.
Qed.

Lemma always_failing_from (n : nat) :
  1 ≤ n →
  ∀ attempts k p o,
    k ≤ n → n - k < attempts →
    always_failing attempts (Some (Z.of_nat n))
      (mkHook (Z.of_nat k) p o (backoff k) 0)
    = mkHook (Z.of_nat n) None false (backoff n) 1.
Proof.
  intros Hn. induction attempts as [|a IH]; intros k p o Hk Hfuel; [lia |].
  cbn [always_failing]. unfold connect. simpl.
  destruct (decide (k = n)) as [->|Hne].
  - by rewrite onerror_at_cap.
  - rewrite onerror_below by lia. simpl. rewrite <- backoff_S.
    apply IH; lia.
Qed.





End RetryFacts.

(** The run [always_failing] with a cap [N >= 1], observed for more than
    [N] attempts: [options.onError] was called once, [N] timers were set
    with the delays [1000, 2000, ..., N*1000], and nothing is pending. *)
Theorem retry_bound (N : Z) (attempts : nat) :
  (1 ≤ N)%Z →
  Z.to_nat N < attempts →
  Retry.always_failing attempts (Some N) Retry.init
  = Retry.mkHook N None false (Retry.backoff (Z.to_nat N)) 1
  ∧ length (Retry.backoff (Z.to_nat N)) = Z.to_nat N
  ∧ ∀ k, k < Z.to_nat N →
         Retry.backoff (Z.to_nat N) !! k = Some (Z.of_nat (S k) * 1000)%Z.
Proof.
  intros HN Hfuel. split; [| split].
  - rewrite <- (Z2Nat.id N) at 1 2 by lia.
    apply (RetryFacts.always_failing_from (Z.to_nat N) ltac:(lia)
             attempts 0 None false); lia.
  - apply RetryFacts.length_backoff.
  - intros k Hk. rewrite RetryFacts.backoff_lookup by done. f_equal. lia.
Qed.

Lemma retry_bound_witness :
  Retry.always_failing 10 (Some 3%Z) Retry.init
  = Retry.mkHook 3 None false [1000; 2000; 3000]%Z 1.
Proof.
  apply (retry_bound 3%Z 10); [lia | vm_compute; lia].
Defined.

Lemma failing_rounds_S (k : nat) :
  failing_rounds (S k)
  = failing_rounds k ++ [Retry.ErrorSignal; Retry.TimerSignal].
Proof.
  induction k as [|k IH]; [done |].
  simpl in *. by rewrite <- IH.
Qed.

(** After [j] failed connections, each followed by the expiry of its
    timer, a hook with cap [n >= j] has reconnected [j] times: its source
    is open again, [j] timers were set and [options.onError] was not
    called. *)
Lemma after_failing_rounds (n j : nat) :
  j ≤ n →
  Retry.after (Some (Z.of_nat n)) (failing_rounds j)
  = Retry.mkHook (Z.of_nat j) None true (Retry.backoff j) 0.
Proof.
  induction j as [|j IH]; intros Hj; [done |].
  unfold Retry.after in *. rewrite failing_rounds_S, foldl_app, IH by lia.
  cbn [foldl Retry.react Retry.sourceOpen].
  rewrite RetryFacts.onerror_below by lia.
  cbn [Retry.pending Retry.connect Retry.retryCount Retry.scheduled
         Retry.onErrorCalls].
  by rewrite <- RetryFacts.backoff_S.
Qed.

(** A hook that gave up is left as it is by every signal. *)
Lemma gave_up_is_final (maxRetries : option Z) (signals : list Retry.Signal)
    (rc : Z) (sch : list Z) (c : nat) :
  foldl (λ h s, Retry.react maxRetries s h)
    (Retry.mkHook rc None false sch c) signals
  = Retry.mkHook rc None false sch c.
Proof.
  induction signals as [|s signals IH]; [done |].
  by destruct s.
Qed.

(** C4: with a retry cap [N >= 1] and a connection that fails on every
    attempt, [options.onError] is called exactly once, after exactly [N]
    retry attempts, the [k]-th of them scheduled [k*1000] ms after the
    failure before it.  After [j <= N] failed attempts whose timers have
    expired the hook has opened a source again each time, has set the
    delays [1000, ..., j*1000] and has not called [options.onError];
    the failure of the [N]-th retry calls it, sets no timer and leaves
    the source closed, and nothing that happens afterwards changes the
    hook, so the call is never repeated. *)
Theorem retry_bound_reconnects (N : Z) (later : list Retry.Signal) :
  (1 ≤ N)%Z →
  (∀ j, j ≤ Z.to_nat N →
        Retry.after (Some N) (failing_rounds j)
        = Retry.mkHook (Z.of_nat j) None true (Retry.backoff j) 0)
  ∧ Retry.after (Some N)
      (failing_rounds (Z.to_nat N) ++ Retry.ErrorSignal :: later)
    = Retry.mkHook N None false (Retry.backoff (Z.to_nat N)) 1
  ∧ length (Retry.backoff (Z.to_nat N)) = Z.to_nat N
  ∧ ∀ k, k < Z.to_nat N →
         Retry.backoff (Z.to_nat N) !! k = Some (Z.of_nat (S k) * 1000)%Z.
Proof.
  intros HN. remember (Z.to_nat N) as n eqn:Hn.
  assert (N = Z.of_nat n) as -> by lia. assert (1 ≤ n) as Hn1 by lia.
  clear Hn HN.
  split; [intros j Hj; by apply after_failing_rounds |]. split; [| split].
  - unfold Retry.after.
    rewrite foldl_app. fold (Retry.after (Some (Z.of_nat n)) (failing_rounds n)).
    rewrite after_failing_rounds by done.
    cbn [foldl Retry.react Retry.sourceOpen].
    rewrite RetryFacts.onerror_at_cap by done. apply gave_up_is_final.
  - apply RetryFacts.length_backoff.
  - intros k Hk. rewrite RetryFacts.backoff_lookup by done. f_equal. lia.
Qed.

Lemma retry_bound_reconnects_witness :
  Retry.after (Some 2%Z)
    (failing_rounds 2
       ++ Retry.ErrorSignal
          :: [Retry.TimerSignal; Retry.ErrorSignal; Retry.Unmount])
  = Retry.mkHook 2 None false [1000; 2000]%Z 1.
Proof.
  apply (retry_bound_reconnects 2%Z
           [Retry.TimerSignal; Retry.ErrorSignal; Retry.Unmount]).
  lia.
Defined.



(** ** The session identifier *)

Lemma sessions_cons now data evs :
  sessions ((now, data) :: evs) =
    if String.eqb (f_title data) "Session"
    then f_output data :: sessions evs
    else sessions evs.
Proof.
  unfold sessions. destruct (String.eqb_spec (f_title data) "Session") as [H|H].
  - by rewrite filter_cons_True.
  - by rewrite filter_cons_False.
Qed.

Lemma query_onmessage_tempDir now data st st' :
  query_onmessage now data st = Ok st' →
  tempDir st' =
    if String.eqb (f_title data) "Session" then Some (f_output data)
    else tempDir st.
Proof.
  unfold query_onmessage.
  destruct (String.eqb_spec (f_title data) "Debug") as [HD|HD].
  - intros [= <-]. rewrite HD. done.
  - destruct (String.eqb (f_title data) "Session"); [by intros [= <-] |].
    destruct (query_updater _ _ _); [by intros [= <-] | done].
Qed.

(** [tempDir] after a stream: the output of the latest ["Session"] event,
    or the previous value when there was none. *)
Lemma run_query_tempDir evs :
  ∀ st st',
    run_query evs st = Ok st' →
    tempDir st' = match last (sessions evs) with
                  | Some s => Some s
                  | None => tempDir st
                  end.
Proof.
  induction evs as [|[now data] evs IH]; intros st st'.
  - by intros [= <-].
  - cbn [run_query].
    destruct (query_onmessage now data st) as [st1|] eqn:Hstep; [| done].
    intros Hrest. cbn [mbind result_bind] in Hrest.
    rewrite (IH _ _ Hrest), sessions_cons.
    apply query_onmessage_tempDir in Hstep. rewrite Hstep.
    destruct (String.eqb (f_title data) "Session"); [| done].
    rewrite last_cons. by destruct (last (sessions evs)).
Qed.

Lemma or_empty_Some (s : string) : or_empty (Some s) = s.
Proof. unfold or_empty. by destruct (String.eqb_spec s "") as [->|]. Qed.

(** C8 (amended): the session identifier retained after a stream is the
    output of the most recent ["Session"] event, not of the first one,
    and a fix request opened afterwards passes exactly that identifier as
    [temp_dir]. *)
Theorem session_retained (evs : list (Date * ForgeResponse))
    (st st' : AppState) (s : string) :
  run_query evs st = Ok st' →
  last (sessions evs) = Some s →
  tempDir st' = Some s
  ∧ ∀ errorMessage req st'',
      getFix errorMessage st' = Some (req, st'') →
      fx_temp_dir req = s ∧ fx_error req = errorMessage.
Proof.
  intros Hrun Hlast. pose proof (run_query_tempDir evs st st' Hrun) as Ht.
  rewrite Hlast in Ht. split; [done |].
  intros errorMessage req st''. unfold getFix.
  destruct (lastOf (messages st')); [| done].
  destruct (negb _); [done |]. intros [= <- _]. simpl.
  by rewrite Ht, or_empty_Some.
Qed.

Lemma session_retained_witness :
  tempDir
    (mkApp [mkMessage user "Prompt" "swap" 0%Z;
            mkMessage ai "swap (Failed)" "Calculating reverted" 2%Z]
       [] 0 (Some "xyz789") false false)
  = Some "xyz789".
Proof.
  apply (session_retained
           [(1%Z, mkForge "Session" "abc123");
            (2%Z, mkForge "swap" "Calculating");
            (3%Z, mkForge "Session" "xyz789");
            (4%Z, mkForge "Error" " reverted")]
           (mkApp [mkMessage user "Prompt" "swap" 0%Z] [] 0 None true false));
    reflexivity.
Defined.

(** C8 as stated fails: after two ["Session"] events the controller holds
    the second output, and the fix request carries it. *)
Lemma session_first_counterexample :
  run_query
    [(1%Z, mkForge "Session" "abc123");
     (2%Z, mkForge "swap" "Calculating");
     (3%Z, mkForge "Session" "xyz789");
     (4%Z, mkForge "Error" " reverted")]
    (mkApp [mkMessage user "Prompt" "swap" 0%Z] [] 0 None true false)
  = Ok (mkApp [mkMessage user "Prompt" "swap" 0%Z;
               mkMessage ai "swap (Failed)" "Calculating reverted" 2%Z]
          [] 0 (Some "xyz789") false false)
  ∧ head (sessions
            [(1%Z, mkForge "Session" "abc123");
             (2%Z, mkForge "swap" "Calculating");
             (3%Z, mkForge "Session" "xyz789");
             (4%Z, mkForge "Error" " reverted")]) = Some "abc123"
  ∧ fst <$> getFix "Calculating reverted"
      (mkApp [mkMessage user "Prompt" "swap" 0%Z;
              mkMessage ai "swap (Failed)" "Calculating reverted" 2%Z]
         [] 0 (Some "xyz789") false false)
    = Some (mkFixRequest "Calculating reverted" "http://ethereumreth:8545"
              "xyz789").
Proof. split; [reflexivity | split; reflexivity]. Qed.

(** ** Transaction plans arriving on a stream *)

Lemma query_onmessage_transactions now data st st' :
  query_onmessage now data st = Ok st' → transactions st' = transactions st.
Proof.
  unfold query_onmessage.
  destruct (String.eqb (f_title data) "Debug"); [by intros [= <-] |].
  destruct (String.eqb (f_title data) "Session"); [by intros [= <-] |].
  destruct (query_updater _ _ _); [by intros [= <-] | done].
Qed.

Lemma run_query_transactions evs :
  ∀ st st', run_query evs st = Ok st' → transactions st' = transactions st.
Proof.
  induction evs as [|[now data] evs IH]; intros st st'; [by intros [= <-] |].
  cbn [run_query].
  destruct (query_onmessage now data st) as [st1|] eqn:Hstep; [| done].
  intros Hrest%IH. by rewrite Hrest, (query_onmessage_transactions _ _ _ _ Hstep).
Qed.

(** The sibling handler of the fix stream does install a plan. *)
Lemma fix_onmessage_installs_plan parse now output txs st r :
  includes output "[{" = true →
  parse output = Ok txs →
  fix_updater now (mkForge "Simulating Transactions" output) (messages st)
  = Ok r →
  ∃ st', fix_onmessage parse now (mkForge "Simulating Transactions" output) st
         = Ok st'
         ∧ transactions st' = txs.
Proof.
  intros Hinc Hparse Hupd. unfold fix_onmessage. simpl.
  rewrite Hinc, Hparse. simpl. rewrite Hupd. simpl. eauto.
Qed.

(** C5: the message listener of the initial stream never touches the
    transaction queue.  On a plan event (title ["Simulating Transactions"],
    a JSON array of transactions as output) it only folds the text into
    the transcript and the queue keeps its previous contents, whereas the
    listener of the fix stream installs the parsed plan for the very same
    event. *)
Theorem query_stream_ignores_plan :
  (∀ now data st,
     match query_onmessage now data st with
     | Ok st' => transactions st' = transactions st
     | Throw _ => messages st = [] ∧ f_title data = "Error"
     end)
  ∧ includes plan_json "[{" = true
  ∧ query_onmessage 1%Z
      (mkForge "Simulating Transactions" plan_json)
      (mkApp [mkMessage user "Prompt" "send" 0%Z]
         [mkTx "0xA" "approve" [] "0" "0x01"] 0 None true false)
    = Ok (mkApp [mkMessage user "Prompt" "send" 0%Z;
                 mkMessage ai "Simulating Transactions"
                   plan_json 1%Z]
            [mkTx "0xA" "approve" [] "0" "0x01"] 0 None true false)
  ∧ fix_onmessage (λ _, Ok [mkTx "0xB" "transfer" [] "0" "0x02"]) 1%Z
      (mkForge "Simulating Transactions" plan_json)
      (mkApp [mkMessage user "Prompt" "send" 0%Z]
         [mkTx "0xA" "approve" [] "0" "0x01"] 0 None true true)
    = Ok (mkApp [mkMessage user "Prompt" "send" 0%Z;
                 mkMessage ai "Simulating Transactions"
                   plan_json 1%Z]
            [mkTx "0xB" "transfer" [] "0" "0x02"] 0 None true true).
Proof.
  split; [| split; [reflexivity | split; reflexivity]].
  intros now data st.
  destruct (query_onmessage now data st) as [st'|e] eqn:H.
  - by apply query_onmessage_transactions in H.
  - unfold query_onmessage in H.
    destruct (String.eqb (f_title data) "Debug"); [done |].
    destruct (String.eqb (f_title data) "Session"); [done |].
    destruct (lastOf (messages st)) as [m|] eqn:Hlast.
    + destruct (updater_total now data _ _ Hlast) as [r Hr].
      by rewrite Hr in H.
    + apply lastOf_None in Hlast. rewrite Hlast, updater_nil in H.
      destruct (String.eqb_spec (f_title data) "Error"); done.
Qed.

(** ** The transaction queue *)

Lemma handleTransaction_begin_eq now transaction st :
  handleTransaction_begin now transaction st =
    set_messages
      (messages st ++
         [mkMessage ai
            (pendingTitle transaction (txCount st) (length (transactions st)))
            (pendingContent transaction) now])
      st.
Proof. reflexivity. Qed.

Lemma no_space_app_space (a b : string) :
  no_space (a +:+ String Ascii.Space b) = false.
Proof.
  induction a as [|c a IH]; [done |].
  rewrite str_app_cons. simpl. rewrite IH. apply andb_false_r.
Qed.

Lemma pendingTitle_not_Transaction transaction count remaining :
  String.eqb (pendingTitle transaction count remaining) "Transaction" = false.
Proof.
  apply String.eqb_neq. intros H. apply (f_equal no_space) in H.
  unfold pendingTitle in H.
  change (" " +:+ ?x) with (String Ascii.Space x) in H.
  by rewrite no_space_app_space in H.
Qed.

(** One successful submission pops the head and counts it. *)
Lemma effect_run_sent now settled hash ms transaction rest n d q f :
  effect_run now settled (Sent hash) (mkApp ms (transaction :: rest) n d q f) =
    Ok (mkApp
          (ms ++
             [mkMessage ai (pendingTitle transaction n (S (length rest)))
                (pendingContent transaction) now;
              mkMessage ai "Transaction" ("Transaction sent! Hash: " +:+ hash)
                settled])
          rest (n + 1) d q f).
Proof.
  unfold effect_run, handleTransaction_then. simpl.
  unfold set_txCount, set_transactions, set_messages. simpl.
  by rewrite <- (assoc_L (++)).
Qed.





(** The [catch] block on a non-empty transcript. *)
Lemma handleTransaction_catch_snoc e_message l m txs n d q f :
  handleTransaction_catch e_message (mkApp (l ++ [m]) txs n d q f) =
    Ok (mkApp
          (l ++
             [mkMessage (role m)
                (if String.eqb (title m) "Transaction"
                 then title m +:+ FailedSuffix else title m)
                (content m +:+ nl +:+ e_message) (timestamp m)])
          txs n d q f).
Proof.
  unfold handleTransaction_catch. cbn [messages].
  rewrite lastOf_snoc, set_last_snoc. unfold set_messages. simpl.
  by destruct (String.eqb (title m) "Transaction").
Qed.

(** C7: what the code does when the submission of the head transaction
    fails.  The failure reason, preceded by a line break, is appended to
    the content of the most recent transcript entry; the head of the
    queue is not popped and the processed counter is unchanged.  The
    marking of the title misses: the [catch] block adds the failure
    marker only to a title that is exactly ["Transaction"], so the entry
    asking for the signature of the failing transaction, which is the
    most recent one when nothing else was appended meanwhile, is left
    unmarked. *)
Theorem submission_failure (now settled : Date) (e_message : string) :
  (∀ l m txs n d q f,
     handleTransaction_catch e_message (mkApp (l ++ [m]) txs n d q f) =
       Ok (mkApp
             (l ++
                [mkMessage (role m)
                   (if String.eqb (title m) "Transaction"
                    then title m +:+ FailedSuffix else title m)
                   (content m +:+ nl +:+ e_message) (timestamp m)])
             txs n d q f))
  ∧ (∀ ms transaction rest n d q f,
       effect_run now settled (Rejected e_message)
         (mkApp ms (transaction :: rest) n d q f) =
         Ok (mkApp
               (ms ++
                  [mkMessage ai (pendingTitle transaction n (S (length rest)))
                     (pendingContent transaction +:+ nl +:+ e_message) now])
               (transaction :: rest) n d q f)).
Proof.
  split; [apply handleTransaction_catch_snoc |].
  intros ms transaction rest n d q f. unfold effect_run. cbn [transactions].
  rewrite handleTransaction_begin_eq. unfold set_messages.
  cbn -[pendingTitle pendingContent].
  rewrite handleTransaction_catch_snoc. cbn -[pendingTitle pendingContent].
  by rewrite pendingTitle_not_Transaction.
Qed.

(** A rejected submission on a queue of one transfer: the most recent
    entry carries the reason but its title has no failure marker. *)
Lemma submission_failure_counterexample :
  effect_run 7%Z 8%Z (Rejected "User rejected the request.")
    (mkApp [] [mkTx "0xB" "transfer" [] "0" "0x02"] 0 None false false)
  = Ok (mkApp
          [mkMessage ai "transfer 0/1"
             (pendingContent (mkTx "0xB" "transfer" [] "0" "0x02")
                +:+ nl +:+ "User rejected the request.") 7%Z]
          [mkTx "0xB" "transfer" [] "0" "0x02"] 0 None false false)
  ∧ includes "transfer 0/1" "Failed" = false
  ∧ "transfer 0/1" ≠ "transfer 0/1" +:+ FailedSuffix.
Proof. split; [reflexivity | split; [reflexivity | discriminate]]. Qed.

(** ** Titles of the entries the controller builds *)

Lemma Forall_snoc_intro {A} (P : A → Prop) (l : list A) (x : A) :
  Forall P l → P x → Forall P (l ++ [x]).
Proof.
  intros Hl Hx. apply Forall_app. split; [done | by apply Forall_singleton].
Qed.

Lemma updater_no_Error_title now data t r :
  Forall (λ m, ¬ titled_Error m) t →
  query_updater now data t = Ok r →
  Forall (λ m, ¬ titled_Error m) r.1.
Proof.
  unfold titled_Error. intros Hall.
  destruct t as [|m l _] using rev_ind.
  - rewrite updater_nil.
    destruct (String.eqb_spec (f_title data) "Error"); [done |].
    intros [= <-]. simpl. by apply Forall_singleton.
  - apply Forall_app in Hall as [Hl Hm]. rewrite Forall_singleton in Hm.
    rewrite updater_snoc.
    destruct (_ && _).
    { intros [= <-]. simpl. by apply Forall_snoc_intro. }
    destruct (String.eqb_spec (f_title data) "Error") as [He|He].
    + rewrite andb_false_r. intros [= <-]. simpl.
      apply Forall_snoc_intro; [done |]. apply failed_suffix_not_Error.
    + destruct (negb _ && negb _); intros [= <-]; simpl.
      * rewrite (cons_middle _ l), (assoc_L (++)).
        apply Forall_snoc_intro; [by apply Forall_snoc_intro | done].
      * by apply Forall_snoc_intro.
Qed.

Lemma pendingTitle_not_Error transaction count remaining :
  pendingTitle transaction count remaining ≠ "Error".
Proof.
  intros H. apply (f_equal no_space) in H. unfold pendingTitle in H.
  change (" " +:+ ?x) with (String Ascii.Space x) in H.
  by rewrite no_space_app_space in H.
Qed.

(** The [catch] block on any state: it needs a last entry. *)
Lemma handleTransaction_catch_inv e_message st st' :
  handleTransaction_catch e_message st = Ok st' →
  ∃ l m,
    messages st = l ++ [m]
    ∧ st' = mkApp
              (l ++
                 [mkMessage (role m)
                    (if String.eqb (title m) "Transaction"
                     then title m +:+ FailedSuffix else title m)
                    (content m +:+ nl +:+ e_message) (timestamp m)])
              (transactions st) (txCount st) (tempDir st) (queryOpen st)
              (fixOpen st).
Proof.
  destruct st as [ms txs n d q f].
  destruct ms as [|m l _] using rev_ind; [done |].
  rewrite handleTransaction_catch_snoc. intros [= <-]. by exists l, m.
Qed.

Lemma step_no_Error_title parse ev st st' :
  Forall (λ m, ¬ titled_Error m) (messages st) →
  step parse ev st = Ok st' →
  Forall (λ m, ¬ titled_Error m) (messages st').
Proof.
  intros Hall.
  destruct ev as [now p|now data|now phase|err|now data|now settled out
                 |now|settled hash|e_message]; simpl.
  - intros [= <-]. simpl. by apply Forall_snoc_intro.
  - unfold query_onmessage.
    destruct (String.eqb (f_title data) "Debug"); [by intros [= <-] |].
    destruct (String.eqb (f_title data) "Session"); [by intros [= <-] |].
    destruct (query_updater _ _ _) as [r|] eqn:Hr; [| done].
    intros [= <-]. simpl. by eapply updater_no_Error_title.
  - intros [= <-]. unfold query_onerror. destruct (Nat.eqb _ 0); [| done].
    simpl. by apply Forall_snoc_intro.
  - unfold getFix. destruct (lastOf (messages st)); [| by intros [= <-]].
    destruct (negb _); by intros [= <-].
  - unfold fix_onmessage.
    destruct (String.eqb (f_title data) "Debug"); [by intros [= <-] |].
    match goal with
    | |- context [mbind _ ?c] => destruct c as [st1|] eqn:Hst1; [| done]
    end.
    assert (messages st1 = messages st) as Hms.
    { destruct (String.eqb _ _); [| by injection Hst1 as <-].
      destruct (includes _ _); [| by injection Hst1 as <-].
      destruct (parse _); [by injection Hst1 as <- | done]. }
    cbn [mbind result_bind]. rewrite fix_updater_eq, Hms.
    destruct (query_updater _ _ _) as [r|] eqn:Hr; [| done].
    intros [= <-]. simpl. by eapply updater_no_Error_title.
  - destruct st as [ms [|transaction rest] n d q f]; [by intros [= <-] |].
    destruct out as [hash|e_message].
    + rewrite effect_run_sent. intros [= <-]. simpl in *.
      rewrite (cons_middle _ ms), (assoc_L (++)).
      apply Forall_snoc_intro; [| done].
      apply Forall_snoc_intro; [done |]. apply pendingTitle_not_Error.
    + unfold effect_run. cbn [transactions].
      rewrite handleTransaction_begin_eq. unfold set_messages.
      cbn -[pendingTitle pendingContent].
      rewrite handleTransaction_catch_snoc.
      cbn -[pendingTitle pendingContent].
      rewrite pendingTitle_not_Transaction. intros [= <-]. simpl in *.
      apply Forall_snoc_intro; [done |]. apply pendingTitle_not_Error.
  - destruct (transactions st) as [|transaction rest] eqn:Htx;
      intros [= <-]; [done |].
    rewrite handleTransaction_begin_eq. simpl.
    apply Forall_snoc_intro; [done |]. apply pendingTitle_not_Error.
  - intros [= <-]. simpl. by apply Forall_snoc_intro.
  - intros (l & m & Hms & ->)%handleTransaction_catch_inv. simpl.
    rewrite Hms in Hall. apply Forall_app in Hall as [Hl Hm].
    rewrite Forall_singleton in Hm. apply Forall_snoc_intro; [done |].
    unfold titled_Error in *. simpl.
    destruct (String.eqb (title m) "Transaction");
      [apply failed_suffix_not_Error | done].
Qed.

(** No entry of a transcript built by the controller is titled
    ["Error"]. *)
Lemma reachable_no_Error_title parse st :
  Reachable parse st → Forall (λ m, ¬ titled_Error m) (messages st).
Proof.
  induction 1 as [|ev st st' _ IH Hstep]; [constructor |].
  by eapply step_no_Error_title.
Qed.

(** X18: in every state the controller can reach from its initial state,
    an ["Error"] event on a non-empty transcript is appended to the last
    entry and marks it failed, and closes the stream: the guard cannot
    swallow it, because no entry the controller builds is titled
    ["Error"]. *)
Lemma reachable_error_event parse st now output m :
  Reachable parse st →
  lastOf (messages st) = Some m →
  query_updater now (mkForge "Error" output) (messages st)
  = Ok (<[length (messages st) - 1 := failed m output]> (messages st), true).
Proof.
  intros Hreach Hlast. rewrite (updater_error_cases _ _ _ _ Hlast).
  rewrite bool_decide_false; [done |]. intros [Ht _].
  apply reachable_no_Error_title in Hreach.
  apply lastOf_inv in Hlast as [l Hl]. rewrite Hl in Hreach.
  apply Forall_app in Hreach as [_ Hm]. rewrite Forall_singleton in Hm.
  by apply Hm.
Qed.

(** C3: for every non-empty transcript of the controller and every
    event titled ["Error"], folding the event never creates a new entry:
    the transcript keeps its length and its earlier entries, the event's
    output is appended to the content of the last entry and that entry's
    title is suffixed with the failure marker, whatever the title of the
    last entry is.  Both copies of the updater do so, and close their
    stream. *)
Theorem error_absorbed_in_last_entry
    (parse : string → result (list TransactionDetails))
    (st : AppState) (now : Date) (output : string) (m : Message) :
  Reachable parse st →
  lastOf (messages st) = Some m →
  ∃ l,
    messages st = l ++ [m]
    ∧ query_updater now (mkForge "Error" output) (messages st)
      = Ok (l ++ [mkMessage (role m) (title m +:+ FailedSuffix)
                    (content m +:+ output) (timestamp m)], true)
    ∧ fix_updater now (mkForge "Error" output) (messages st)
      = Ok (l ++ [mkMessage (role m) (title m +:+ FailedSuffix)
                    (content m +:+ output) (timestamp m)], true)
    ∧ length (l ++ [mkMessage (role m) (title m +:+ FailedSuffix)
                      (content m +:+ output) (timestamp m)])
      = length (messages st).
Proof.
  intros Hreach Hlast. apply reachable_no_Error_title in Hreach.
  apply lastOf_inv in Hlast as [l Hl]. exists l. split; [done |].
  rewrite Hl in Hreach |- *. apply Forall_app in Hreach as [_ Hm].
  rewrite Forall_singleton in Hm. unfold titled_Error in Hm.
  apply String.eqb_neq in Hm.
  assert (query_updater now (mkForge "Error" output) (l ++ [m])
          = Ok (l ++ [mkMessage (role m) (title m +:+ FailedSuffix)
                        (content m +:+ output) (timestamp m)], true)) as Hq.
  { rewrite updater_snoc. cbn [f_title f_output]. rewrite Hm.
    by rewrite andb_false_r. }
  split; [exact Hq |]. split; [exact Hq |]. by rewrite !length_app.
Qed.

Lemma error_absorbed_in_last_entry_witness :
  ∃ l,
    [mkMessage user "Prompt" "swap" 0%Z; mkMessage ai "swap" "Calculating" 1%Z]
    = l ++ [mkMessage ai "swap" "Calculating" 1%Z]
    ∧ query_updater 9%Z (mkForge "Error" " reverted")
        [mkMessage user "Prompt" "swap" 0%Z;
         mkMessage ai "swap" "Calculating" 1%Z]
      = Ok (l ++ [mkMessage ai "swap (Failed)" "Calculating reverted" 1%Z],
            true)
    ∧ fix_updater 9%Z (mkForge "Error" " reverted")
        [mkMessage user "Prompt" "swap" 0%Z;
         mkMessage ai "swap" "Calculating" 1%Z]
      = Ok (l ++ [mkMessage ai "swap (Failed)" "Calculating reverted" 1%Z],
            true)
    ∧ length (l ++ [mkMessage ai "swap (Failed)" "Calculating reverted" 1%Z])
      = 2.
Proof.
  exact (error_absorbed_in_last_entry (λ _, Throw SyntaxError)
           (mkApp [mkMessage user "Prompt" "swap" 0%Z;
                   mkMessage ai "swap" "Calculating" 1%Z]
              [] 0 None true false)
           9%Z " reverted" (mkMessage ai "swap" "Calculating" 1%Z)
           (reach_step _ (QueryMessage 1%Z (mkForge "swap" "Calculating"))
              (mkApp [mkMessage user "Prompt" "swap" 0%Z] [] 0 None true false)
              _
              (reach_step _ (Submit 0%Z "swap") initial _
                 (reach_initial _) eq_refl)
              eq_refl)
           eq_refl).
Defined.


(** ** The updater on object references refines the updater on values *)

Lemma denotes_insert_other (h : store) arr ms r x :
  denotes h arr ms → r ∉ arr → denotes (<[r := x]> h) arr ms.
Proof.
  unfold denotes. induction 1 as [|r' m arr ms Hr' _ IH]; intros Hnotin.
  - constructor.
  - apply not_elem_of_cons in Hnotin as [Hne Hnotin].
    constructor; [by rewrite lookup_insert_ne | by apply IH].
Qed.

Lemma denotes_allocated (h : store) arr ms r :
  denotes h arr ms → r ∈ arr → is_Some (h !! r).
Proof.
  unfold denotes. induction 1 as [|r' m arr ms Hr' _ IH]; intros Hin.
  - by apply elem_of_nil in Hin.
  - apply elem_of_cons in Hin as [->|Hin]; eauto.
Qed.

Lemma fresh_not_in (h : store) arr ms :
  denotes h arr ms → fresh (dom h) ∉ arr.
Proof.
  intros Hd Hin. apply (denotes_allocated _ _ _ _ Hd) in Hin.
  apply elem_of_dom in Hin. by apply is_fresh in Hin.
Qed.

Lemma denotes_snoc (h : store) arr ms r m :
  denotes h arr ms → h !! r = Some m → denotes h (arr ++ [r]) (ms ++ [m]).
Proof.
  intros Hd Hr. apply Forall2_app; [done |]. by repeat constructor.
Qed.

Lemma denotes_snoc_inv (h : store) arr ms m :
  denotes h arr (ms ++ [m]) →
  ∃ arr0 r, arr = arr0 ++ [r] ∧ denotes h arr0 ms ∧ h !! r = Some m.
Proof.
  intros (arr0 & arr1 & Hd0 & Hd1 & ->)%Forall2_app_inv_r.
  apply Forall2_cons_inv_r in Hd1 as (r & tl & Hr & Htl & ->).
  apply Forall2_nil_inv_r in Htl as ->. eauto.
Qed.

Lemma lookup_last_snoc {A} (l : list A) (x : A) :
  (l ++ [x]) !! (length (l ++ [x]) - 1) = Some x.
Proof.
  rewrite length_app. simpl.
  replace (length l + 1 - 1) with (length l + 0) by lia.
  by rewrite lookup_app_r, Nat.add_0_r, Nat.sub_diag by lia.
Qed.

(** X20: run on an array of distinct references that denotes the
    transcript [ms], the updater on references throws exactly when the
    updater on values does; otherwise the array and store it returns
    denote the transcript returned on values.  Unless a new entry was
    started, the returned array holds the references of [prev]: the
    write to the last entry is made in place and is seen through [prev]
    as well. *)
Lemma updater_ref_refines now data prev (h : store) ms :
  NoDup prev →
  denotes h prev ms →
  match query_updater now data ms with
  | Ok (ms', closed) =>
      ∃ arr' h',
        query_updater_ref now data prev h = Ok (arr', h', closed)
        ∧ denotes h' arr' ms'
        ∧ NoDup arr'
        ∧ (length ms' = length ms → arr' = prev)
  | Throw e => query_updater_ref now data prev h = Throw e
  end.
Proof.
  intros Hnd Hd. destruct ms as [|m ms _] using rev_ind.
  - apply Forall2_nil_inv_r in Hd as ->. rewrite updater_nil.
    unfold query_updater_ref. simpl.
    destruct (String.eqb (f_title data) "Error"); [done |]. simpl.
    eexists _, _. split; [done |]. split; [| split; [| done]].
    + repeat constructor. by rewrite lookup_insert_eq.
    + apply NoDup_singleton.
  - pose proof Hd as Hd'.
    apply denotes_snoc_inv in Hd as (arr0 & r & -> & Hd0 & Hr).
    apply NoDup_app in Hnd as (Hnd0 & Hdisj & _).
    assert (r ∉ arr0) as Hr0 by (intros Hin; apply (Hdisj _ Hin); set_solver).
    rewrite updater_snoc. unfold query_updater_ref.
    rewrite lookup_last_snoc. cbn [mbind option_bind]. rewrite Hr. simpl.
    destruct (_ && _).
    { eexists _, _. split; [done |]. split; [done |]. split; [| done].
      apply NoDup_app. split; [done |]. split; [done | apply NoDup_singleton]. }
    destruct (negb _ && negb _).
    { eexists _, _. split; [done |].
      pose proof (fresh_not_in _ _ _ Hd') as Hfresh.
      split; [| split].
      - rewrite (cons_middle m ms), (assoc_L (++)).
        apply denotes_snoc; [| by rewrite lookup_insert_eq].
        by apply denotes_insert_other.
      - apply NoDup_app. split; [| split; [| apply NoDup_singleton]].
        + apply NoDup_app. split; [done |]. split; [done | apply NoDup_singleton].
        + intros x Hx ->%list_elem_of_singleton. by apply Hfresh.
      - rewrite !length_app. simpl. lia. }
    destruct (String.eqb (f_title data) "Error").
    + eexists _, _. split; [done |]. split; [| split; [| done]].
      * apply denotes_snoc; [by apply denotes_insert_other |].
        by rewrite lookup_insert_eq.
      * apply NoDup_app. split; [done |]. split; [done | apply NoDup_singleton].
    + eexists _, _. split; [done |]. split; [| split; [| done]].
      * apply denotes_snoc; [by apply denotes_insert_other |].
        by rewrite lookup_insert_eq.
      * apply NoDup_app. split; [done |]. split; [done | apply NoDup_singleton].
Qed.

(** ** The listener of the initial stream and its updater *)

(** Control labels never reach the updater. *)
Lemma query_onmessage_control now data st :
  f_title data = "Debug" ∨ f_title data = "Session" →
  ∃ st', query_onmessage now data st = Ok st' ∧ messages st' = messages st.
Proof.
  unfold query_onmessage. intros [-> | ->]; simpl; eauto.
Qed.

(** X19: on a stream without ["Debug"] and ["Session"] events, whenever
    the fold of the updater over the events succeeds, the listener
    processes the whole stream without throwing and leaves exactly that
    fold as transcript. *)
Lemma run_query_foldAll evs :
  Forall (λ e, f_title e.2 ≠ "Debug" ∧ f_title e.2 ≠ "Session") evs →
  ∀ st t',
    foldAll evs (messages st) = Ok t' →
    ∃ st', run_query evs st = Ok st' ∧ messages st' = t'.
Proof.
  induction 1 as [|[now data] evs [HD HS] _ IH]; intros st t'.
  - intros [= <-]. by exists st.
  - cbn [foldAll run_query]. unfold fold1, query_onmessage. simpl in HD, HS.
    apply String.eqb_neq in HD as ->. apply String.eqb_neq in HS as ->.
    destruct (query_updater now data (messages st)) as [r|]; [| done].
    cbn [mbind result_bind]. intros Hfold.
    match goal with
    | |- context [run_query _ ?st1] => destruct (IH st1 t') as (st' & ? & ?)
    end; [done |]. by exists st'.
Qed.

(** * Further properties of the code *)

(** ** The updater *)

(** X1: an event whose title is neither ["Error"] nor the title of the
    last entry always starts a new entry: the transcript is returned
    with one more entry, carrying the event's title and output and the
    role [ai]; no earlier entry is touched and the stream stays open.
    Both copies of the updater behave so. *)
Theorem new_step_boundary (now : Date) (data : ForgeResponse)
    (t : list Message) :
  f_title data ≠ "Error" →
  title <$> lastOf t ≠ Some (f_title data) →
  query_updater now data t
  = Ok (t ++ [mkMessage ai (f_title data) (f_output data) now], false)
  ∧ fix_updater now data t
    = Ok (t ++ [mkMessage ai (f_title data) (f_output data) now], false).
Proof.
  intros HnE%String.eqb_neq Hlast.
  assert (query_updater now data t
          = Ok (t ++ [mkMessage ai (f_title data) (f_output data) now], false))
    as Hq; [| by split].
  destruct t as [|m l _] using rev_ind.
  - by rewrite updater_nil, HnE.
  - rewrite lastOf_snoc in Hlast. simpl in Hlast. rewrite updater_snoc, HnE.
    assert (String.eqb (title m) (f_title data) = false) as ->
      by (apply String.eqb_neq; congruence).
    rewrite andb_false_r. simpl. by rewrite <- (assoc_L (++)).
Qed.

Lemma new_step_boundary_witness :
  query_updater 3%Z (mkForge "Compiling" "forge build")
    [mkMessage user "Prompt" "swap" 0%Z; mkMessage ai "Generating" "code" 1%Z]
  = Ok ([mkMessage user "Prompt" "swap" 0%Z;
         mkMessage ai "Generating" "code" 1%Z;
         mkMessage ai "Compiling" "forge build" 3%Z], false).
Proof.
  apply (new_step_boundary 3%Z (mkForge "Compiling" "forge build")
           [mkMessage user "Prompt" "swap" 0%Z;
            mkMessage ai "Generating" "code" 1%Z]);
    discriminate.
Defined.

(** X2: the updater throws in one situation only, an ["Error"] event on
    an empty transcript, and the error is then a [TypeError]; on every
    other input it returns a transcript. *)
Theorem updater_throws_only_on_empty (now : Date) (data : ForgeResponse)
    (t : list Message) (e : JsError) :
  query_updater now data t = Throw e
  ↔ t = [] ∧ f_title data = "Error" ∧ e = TypeError.
Proof.
  split.
  - destruct t as [|m l _] using rev_ind.
    + rewrite updater_nil.
      destruct (String.eqb_spec (f_title data) "Error"); [| done].
      by intros [= <-].
    + rewrite updater_snoc.
      destruct (_ && _); [done |]. destruct (_ && _); [done |].
      by destruct (String.eqb (f_title data) "Error").
  - intros (-> & He & ->). rewrite updater_nil.
    by apply String.eqb_eq in He as ->.
Qed.

(** X3: the updater closes the event source exactly when an ["Error"]
    event changed the transcript.  An ["Error"] event swallowed by the
    guard, and every event under another title, leave the stream open. *)
Theorem stream_closed_iff (now : Date) (data : ForgeResponse)
    (t t' : list Message) (closed : bool) :
  query_updater now data t = Ok (t', closed) →
  closed = true ↔ f_title data = "Error" ∧ t' ≠ t.
Proof.
  destruct t as [|m l _] using rev_ind.
  - rewrite updater_nil.
    destruct (String.eqb_spec (f_title data) "Error") as [He|He]; [done |].
    intros [= <- <-]. split; [done | by intros [? _]].
  - rewrite updater_snoc.
    destruct (_ && _) eqn:Hguard.
    { intros [= <- <-]. split; [done | by intros [_ ?]]. }
    destruct (String.eqb_spec (f_title data) "Error") as [He|He].
    + rewrite andb_false_r. intros [= <- <-]. split; [| done].
      intros _. split; [done |]. intros H%app_inv_head. injection H as H.
      apply (f_equal title) in H. simpl in H.
      by apply failed_suffix_changes in H.
    + destruct (negb _ && negb _); intros [= <- <-];
        (split; [done | by intros [? _]]).
Qed.

Lemma stream_closed_iff_witness :
  f_title (mkForge "Error" " reverted") = "Error"
  ∧ [mkMessage ai "swap (Failed)" "Calculating reverted" 5%Z]
    ≠ [mkMessage ai "swap" "Calculating" 5%Z].
Proof.
  exact (proj1 (stream_closed_iff 9%Z (mkForge "Error" " reverted")
                  [mkMessage ai "swap" "Calculating" 5%Z]
                  [mkMessage ai "swap (Failed)" "Calculating reverted" 5%Z]
                  true eq_refl) eq_refl).
Defined.

(** X4: an ["Error"] event that arrives right after the prompt was
    submitted, before any step, lands in the user's own entry: the
    output is appended to the prompt's text, the entry is retitled
    ["Prompt (Failed)"] and keeps the role [user], and the stream is
    closed. *)
Theorem error_right_after_prompt (now later : Date) (prompt output : string)
    (st : AppState) :
  query_onmessage later (mkForge "Error" output) (query_submit now prompt st)
  = Ok (mkApp
          (messages st ++
             [mkMessage user "Prompt (Failed)" (prompt +:+ output) now])
          (transactions st) (txCount st) (tempDir st) false (fixOpen st)).
Proof.
  unfold query_onmessage, query_submit. simpl.
  rewrite updater_snoc. simpl. rewrite andb_false_r. simpl.
  by destruct st.
Qed.

(** ** The listeners and the state cells *)

(** The listener of the fix stream, by cases. *)
Lemma fix_onmessage_cases parse now data st :
  fix_onmessage parse now data st =
    if String.eqb (f_title data) "Debug" then Ok st
    else
      match (if String.eqb (f_title data) "Simulating Transactions"
                && includes (f_output data) "[{"
             then parse (f_output data) else Ok (transactions st)) with
      | Throw e => Throw e
      | Ok txs =>
          match fix_updater now data (messages st) with
          | Throw e => Throw e
          | Ok r =>
              Ok (mkApp r.1 txs (txCount st) (tempDir st) (queryOpen st)
                    (fixOpen st && negb r.2))
          end
      end.
Proof.
  unfold fix_onmessage.
  destruct (String.eqb (f_title data) "Debug"); [done |].
  destruct (String.eqb (f_title data) "Simulating Transactions"); simpl;
    [destruct (includes (f_output data) "[{"); simpl;
       [destruct (parse (f_output data)); simpl; [| done] |] |];
    by destruct (fix_updater now data _).
Qed.

Lemma effect_run_cells now settled outcome st st' :
  effect_run now settled outcome st = Ok st' →
  tempDir st' = tempDir st
  ∧ transactions st'
    = match outcome with
      | Sent _ => drop 1 (transactions st)
      | Rejected _ => transactions st
      end
  ∧ txCount st'
    = match outcome, transactions st with
      | Sent _, _ :: _ => txCount st + 1
      | _, _ => txCount st
      end.
Proof.
  destruct st as [ms [|transaction rest] n d q f].
  - intros [= <-]. by destruct outcome.
  - destruct outcome as [hash|e_message].
    + rewrite effect_run_sent. by intros [= <-].
    + unfold effect_run. cbn [transactions].
      rewrite handleTransaction_begin_eq. unfold set_messages.
      cbn -[pendingTitle pendingContent].
      rewrite handleTransaction_catch_snoc. by intros [= <-].
Qed.

(** X5: the session identifier is written by one event only, a
    ["Session"] event of the initial stream, which stores its output.
    Nothing else touches it: a new prompt does not clear it, the fix
    stream never sets it (not even on a ["Session"] event of its own),
    and the transaction effect leaves it alone. *)
Theorem tempDir_written_only_by_session
    (parse : string → result (list TransactionDetails))
    (ev : Event) (st st' : AppState) :
  step parse ev st = Ok st' →
  tempDir st' =
    match ev with
    | QueryMessage _ data =>
        if String.eqb (f_title data) "Session" then Some (f_output data)
        else tempDir st
    | _ => tempDir st
    end.
Proof.
  destruct ev as [now p|now data|now phase|err|now data|now settled out
                 |now|settled hash|e_message]; simpl.
  - by intros [= <-].
  - apply query_onmessage_tempDir.
  - intros [= <-]. unfold query_onerror. by destruct (Nat.eqb _ 0).
  - unfold getFix. destruct (lastOf (messages st)); [| by intros [= <-]].
    destruct (negb _); by intros [= <-].
  - rewrite fix_onmessage_cases.
    destruct (String.eqb (f_title data) "Debug"); [by intros [= <-] |].
    match goal with
    | |- context [match ?c with Ok _ => _ | Throw _ => _ end] =>
        destruct c; [| done]
    end.
    destruct (fix_updater now data _); [by intros [= <-] | done].
  - intros H. by apply effect_run_cells in H as (? & _).
  - destruct (transactions st); by intros [= <-].
  - by intros [= <-].
  - by intros (l & m & _ & ->)%handleTransaction_catch_inv.
Qed.

Lemma tempDir_written_only_by_session_witness :
  tempDir
    (mkApp [mkMessage ai "swap (Failed)" "reverted" 1%Z;
            mkMessage ai "Session" "/tmp/other" 2%Z]
       [] 0 (Some "/tmp/abc") false true)
  = Some "/tmp/abc".
Proof.
  apply (tempDir_written_only_by_session (λ _, Throw SyntaxError)
           (FixMessage 2%Z (mkForge "Session" "/tmp/other"))
           (mkApp [mkMessage ai "swap (Failed)" "reverted" 1%Z]
              [] 0 (Some "/tmp/abc") false true)).
  reflexivity.
Defined.

(** X6: the two listeners treat a ["Session"] event differently.  The one
    of the initial stream stores the output and leaves the transcript
    alone; the one of the fix stream has no such case, so the event goes
    through the updater and the session token becomes a transcript entry
    titled ["Session"]. *)
Theorem session_event_in_each_stream
    (parse : string → result (list TransactionDetails))
    (now : Date) (output : string) (st : AppState) :
  title <$> lastOf (messages st) ≠ Some "Session" →
  query_onmessage now (mkForge "Session" output) st
  = Ok (set_tempDir (Some output) st)
  ∧ fix_onmessage parse now (mkForge "Session" output) st
    = Ok (set_messages (messages st ++ [mkMessage ai "Session" output now]) st).
Proof.
  intros Hlast. split; [done |].
  rewrite fix_onmessage_cases, fix_updater_eq. simpl.
  destruct (messages st) as [|m l _] eqn:Hms using rev_ind.
  - rewrite updater_nil. simpl. destruct st. simpl in *. subst.
    by rewrite andb_true_r.
  - rewrite lastOf_snoc in Hlast. simpl in Hlast. rewrite updater_snoc. simpl.
    assert (String.eqb (title m) "Session" = false) as ->
      by (apply String.eqb_neq; congruence).
    rewrite andb_false_r. simpl. destruct st. simpl in *. subst.
    by rewrite andb_true_r, <- (assoc_L (++)).
Qed.

Lemma session_event_in_each_stream_witness :
  fix_onmessage (λ _, Throw SyntaxError) 2%Z (mkForge "Session" "/tmp/other")
    (mkApp [mkMessage ai "swap (Failed)" "reverted" 1%Z]
       [] 0 (Some "/tmp/abc") false true)
  = Ok (mkApp [mkMessage ai "swap (Failed)" "reverted" 1%Z;
               mkMessage ai "Session" "/tmp/other" 2%Z]
          [] 0 (Some "/tmp/abc") false true).
Proof.
  apply (session_event_in_each_stream (λ _, Throw SyntaxError) 2%Z
           "/tmp/other"
           (mkApp [mkMessage ai "swap (Failed)" "reverted" 1%Z]
              [] 0 (Some "/tmp/abc") false true)).
  discriminate.
Defined.

(** X7: the transaction queue is written in two places only.  The
    listener of the fix stream replaces it wholesale by the parsed output
    of an event titled ["Simulating Transactions"] whose output contains
    ["[{"]; an accepted submission drops the head of the queue as it is
    when the provider's answer arrives.  The processed counter moves only
    in the second case, by one, and is not reset when a plan is
    installed. *)
Theorem queue_written_in_two_places
    (parse : string → result (list TransactionDetails))
    (ev : Event) (st st' : AppState) :
  step parse ev st = Ok st' →
  transactions st' =
    match ev with
    | FixMessage _ data =>
        if String.eqb (f_title data) "Simulating Transactions"
           && includes (f_output data) "[{"
        then match parse (f_output data) with
             | Ok txs => txs
             | Throw _ => transactions st
             end
        else transactions st
    | EffectRun _ _ (Sent _) => drop 1 (transactions st)
    | TxThen _ _ => drop 1 (transactions st)
    | _ => transactions st
    end
  ∧ txCount st' =
      match ev, transactions st with
      | EffectRun _ _ (Sent _), _ :: _ => txCount st + 1
      | TxThen _ _, _ => txCount st + 1
      | _, _ => txCount st
      end.
Proof.
  destruct ev as [now p|now data|now phase|err|now data|now settled out
                 |now|settled hash|e_message]; simpl.
  - intros [= <-]. simpl. by destruct (transactions st).
  - intros H. rewrite (query_onmessage_transactions _ _ _ _ H).
    split; [done |]. unfold query_onmessage in H.
    destruct (String.eqb (f_title data) "Debug");
      [injection H as <-; by destruct (transactions st) |].
    destruct (String.eqb (f_title data) "Session");
      [injection H as <-; by destruct (transactions st) |].
    destruct (query_updater _ _ _); [| done].
    injection H as <-. by destruct (transactions st).
  - intros [= <-]. unfold query_onerror.
    destruct (Nat.eqb _ 0); simpl; by destruct (transactions st).
  - unfold getFix.
    destruct (lastOf (messages st));
      [| intros [= <-]; by destruct (transactions st)].
    destruct (negb _); intros [= <-]; simpl; by destruct (transactions st).
  - rewrite fix_onmessage_cases.
    destruct (String.eqb_spec (f_title data) "Debug") as [HD|HD].
    + rewrite HD. simpl. intros [= <-]. by destruct (transactions st).
    + destruct (String.eqb (f_title data) "Simulating Transactions"
                && includes (f_output data) "[{").
      * destruct (parse (f_output data)); [| done].
        destruct (fix_updater now data _); [| done].
        intros [= <-]. simpl. by destruct (transactions st).
      * destruct (fix_updater now data _); [| done].
        intros [= <-]. simpl. by destruct (transactions st).
  - intros H. apply effect_run_cells in H as (_ & Htx & Hn).
    rewrite Htx, Hn. by destruct out, (transactions st).
  - destruct (transactions st) eqn:Htx; intros [= <-]; simpl; by rewrite Htx.
  - intros [= <-]. simpl. by destruct (transactions st).
  - intros (l & m & _ & ->)%handleTransaction_catch_inv. simpl.
    by destruct (transactions st).
Qed.

Lemma queue_written_in_two_places_witness :
  transactions
    (mkApp [mkMessage ai "Simulating Transactions" plan_json 3%Z]
       [mkTx "0xB" "transfer" [] "0" "0x02"] 4 None false true)
  = [mkTx "0xB" "transfer" [] "0" "0x02"]
  ∧ txCount
      (mkApp [mkMessage ai "Simulating Transactions" plan_json 3%Z]
         [mkTx "0xB" "transfer" [] "0" "0x02"] 4 None false true)
    = 4.
Proof.
  apply (queue_written_in_two_places
           (λ _, Ok [mkTx "0xB" "transfer" [] "0" "0x02"])
           (FixMessage 3%Z (mkForge "Simulating Transactions" plan_json))
           (mkApp [] [mkTx "0xA" "approve" [] "0" "0x01"] 4 None false true)).
  reflexivity.
Defined.

(** X8: when the output of a plan event is not valid JSON, [JSON.parse]
    throws before the listener reaches [setMessages]: the event is lost
    altogether, its text never enters the transcript and the queue keeps
    its contents. *)
Theorem malformed_plan_loses_event
    (parse : string → result (list TransactionDetails))
    (now : Date) (output : string) (st : AppState) (e : JsError) :
  includes output "[{" = true →
  parse output = Throw e →
  fix_onmessage parse now (mkForge "Simulating Transactions" output) st
  = Throw e.
Proof.
  intros Hinc Hparse. rewrite fix_onmessage_cases. simpl.
  by rewrite Hinc, Hparse.
Qed.

Lemma malformed_plan_loses_event_witness :
  fix_onmessage (λ _, Throw SyntaxError) 3%Z
    (mkForge "Simulating Transactions" "Plan so far: [{")
    (mkApp [mkMessage ai "swap (Failed)" "reverted" 1%Z] [] 0 None false true)
  = Throw SyntaxError.
Proof.
  apply (malformed_plan_loses_event (λ _, Throw SyntaxError) 3%Z
           "Plan so far: [{"); reflexivity.
Defined.

(** ** The transaction queue, end to end *)

(** X9: a plan is processed strictly in order.  When the provider
    accepts every submission, the transcript gains, for each transaction
    in plan order, the request for its signature followed by the report
    of its hash; the queue loses one head per accepted submission and
    the counter counts them.  Runs of the effect beyond the end of the
    plan find the queue empty and change nothing. *)
Theorem plan_processed_in_order (runs : list (Date * Date * string))
    (ms : list Message) (plan : list TransactionDetails) (n : nat)
    (d : option string) (q f : bool) :
  effect_loop (sent <$> runs) (mkApp ms plan n d q f)
  = Ok (mkApp (ms ++ sent_entries n plan runs) (drop (length runs) plan)
          (n + min (length runs) (length plan)) d q f).
Proof.
  revert ms plan n.
  induction runs as [|[[now settled] hash] runs IH]; intros ms plan n.
  - simpl. destruct plan; simpl; by rewrite app_nil_r, Nat.add_0_r.
  - rewrite fmap_cons. unfold sent at 1. cbn [fst snd effect_loop].
    destruct plan as [|transaction plan].
    + cbn [effect_run transactions mbind result_bind]. rewrite IH.
      simpl. by destruct runs as [|[[? ?] ?] ?].
    + rewrite effect_run_sent. cbn [mbind result_bind]. rewrite IH.
      cbn [sent_entries length drop]. rewrite <- (assoc_L (++)). simpl.
      do 2 f_equal. lia.
Qed.

(** ** What the controller never undoes *)

Lemma entry_grows_refl (m : Message) : entry_grows m m.
Proof.
  repeat split; exists ""; by rewrite str_app_empty_r.
Qed.

Lemma entry_grows_trans (a b c : Message) :
  entry_grows a b → entry_grows b c → entry_grows a c.
Proof.
  intros (Hr1 & Ht1 & [s1 Hs1] & [c1 Hc1]) (Hr2 & Ht2 & [s2 Hs2] & [c2 Hc2]).
  split; [congruence |]. split; [congruence |]. split.
  - exists (s1 +:+ s2). by rewrite Hs2, Hs1, str_app_assoc.
  - exists (c1 +:+ c2). by rewrite Hc2, Hc1, str_app_assoc.
Qed.

Lemma entries_grow_refl (t : list Message) : Forall2 entry_grows t t.
Proof. induction t; constructor; [apply entry_grows_refl | done]. Qed.

Lemma entries_grow_trans (a b c : list Message) :
  Forall2 entry_grows a b → Forall2 entry_grows b c → Forall2 entry_grows a c.
Proof.
  intros Hab. revert c. induction Hab as [|x y a b Hxy _ IH]; intros c Hbc.
  - by apply Forall2_nil_inv_l in Hbc as ->.
  - apply Forall2_cons_inv_l in Hbc as (z & c' & Hyz & Hbc & ->).
    constructor; [by eapply entry_grows_trans | by apply IH].
Qed.

Lemma transcript_grows_refl (t : list Message) : transcript_grows t t.
Proof. exists t, []. split; [apply entries_grow_refl | by rewrite app_nil_r]. Qed.

Lemma transcript_grows_trans (a b c : list Message) :
  transcript_grows a b → transcript_grows b c → transcript_grows a c.
Proof.
  intros (a0 & added1 & Ha & ->) (b0 & added2 & Hb & ->).
  apply Forall2_app_inv_l in Hb as (a1 & b1 & Ha1 & Hb1 & ->).
  exists a1, (b1 ++ added2). split; [by eapply entries_grow_trans |].
  by rewrite (assoc_L (++)).
Qed.

Lemma transcript_grows_app (t added : list Message) :
  transcript_grows t (t ++ added).
Proof. exists t, added. split; [apply entries_grow_refl | done]. Qed.

Lemma transcript_grows_last (l : list Message) (m m' : Message) :
  entry_grows m m' → transcript_grows (l ++ [m]) (l ++ [m']).
Proof.
  intros Hm. exists (l ++ [m']), []. split; [| by rewrite app_nil_r].
  apply Forall2_app; [apply entries_grow_refl |].
  constructor; [done | constructor].
Qed.

Lemma snoc_two {A} (l : list A) (a b : A) : l ++ [a; b] = (l ++ [a]) ++ [b].
Proof. by rewrite <- (assoc_L (++)). Qed.

Lemma updater_grows now data t r :
  query_updater now data t = Ok r → transcript_grows t r.1.
Proof.
  destruct t as [|m l _] using rev_ind.
  - rewrite updater_nil.
    destruct (String.eqb (f_title data) "Error"); [done |].
    intros [= <-]. simpl. apply (transcript_grows_app []).
  - rewrite updater_snoc.
    destruct (_ && _); [intros [= <-]; simpl; apply transcript_grows_refl |].
    destruct (_ && _).
    { intros [= <-]. simpl. rewrite snoc_two. apply transcript_grows_app. }
    destruct (String.eqb (f_title data) "Error"); intros [= <-]; simpl;
      apply transcript_grows_last; unfold entry_grows; simpl.
    + repeat split; eauto.
    + repeat split; [exists ""; by rewrite str_app_empty_r | eauto].
Qed.

Lemma step_grows parse ev st st' :
  step parse ev st = Ok st' → transcript_grows (messages st) (messages st').
Proof.
  destruct ev as [now p|now data|now phase|err|now data|now settled out
                 |now|settled hash|e_message]; simpl.
  - intros [= <-]. apply transcript_grows_app.
  - unfold query_onmessage.
    destruct (String.eqb (f_title data) "Debug");
      [intros [= <-]; apply transcript_grows_refl |].
    destruct (String.eqb (f_title data) "Session");
      [intros [= <-]; apply transcript_grows_refl |].
    destruct (query_updater _ _ _) as [r|] eqn:Hr; [| done].
    intros [= <-]. by apply updater_grows in Hr.
  - intros [= <-]. unfold query_onerror.
    destruct (Nat.eqb _ 0); [apply transcript_grows_app |].
    apply transcript_grows_refl.
  - unfold getFix.
    destruct (lastOf (messages st));
      [| intros [= <-]; apply transcript_grows_refl].
    destruct (negb _); intros [= <-]; apply transcript_grows_refl.
  - rewrite fix_onmessage_cases, fix_updater_eq.
    destruct (String.eqb (f_title data) "Debug");
      [intros [= <-]; apply transcript_grows_refl |].
    match goal with
    | |- context [match ?c with Ok _ => _ | Throw _ => _ end] =>
        destruct c; [| done]
    end.
    destruct (query_updater _ _ _) as [r|] eqn:Hr; [| done].
    intros [= <-]. by apply updater_grows in Hr.
  - destruct st as [ms [|transaction rest] n d q f].
    { intros [= <-]. apply transcript_grows_refl. }
    destruct out as [hash|e_message].
    + rewrite effect_run_sent. intros [= <-]. apply transcript_grows_app.
    + unfold effect_run. cbn [transactions].
      rewrite handleTransaction_begin_eq. unfold set_messages.
      cbn -[pendingTitle pendingContent].
      rewrite handleTransaction_catch_snoc. intros [= <-].
      apply transcript_grows_app.
  - destruct (transactions st);
      intros [= <-]; [apply transcript_grows_refl |].
    apply transcript_grows_app.
  - intros [= <-]. apply transcript_grows_app.
  - intros (l & m & -> & ->)%handleTransaction_catch_inv. simpl.
    apply transcript_grows_last. unfold entry_grows. simpl.
    split; [done |]. split; [done |]. split; [| eauto].
    destruct (String.eqb (title m) "Transaction"); [eauto |].
    exists "". by rewrite str_app_empty_r.
Qed.

(** X10: the transcript is append-only along every sequence of
    controller events (prompts, events of both streams, connection
    errors, fix requests, runs of the transaction effect).  No entry is
    removed or moved; an entry keeps its role and its timestamp, and its
    title and content only ever get text added at the end. *)
Theorem transcript_append_only
    (parse : string → result (list TransactionDetails))
    (evs : list Event) (st st' : AppState) :
  run parse evs st = Ok st' →
  transcript_grows (messages st) (messages st').
Proof.
  revert st. induction evs as [|ev evs IH]; intros st.
  - intros [= <-]. apply transcript_grows_refl.
  - cbn [run]. destruct (step parse ev st) as [st1|] eqn:Hstep; [| done].
    cbn [mbind result_bind]. intros Hrest%IH.
    apply step_grows in Hstep. by eapply transcript_grows_trans.
Qed.

Lemma transcript_append_only_witness :
  transcript_grows
    [mkMessage user "Prompt" "swap" 0%Z]
    [mkMessage user "Prompt" "swap" 0%Z;
     mkMessage ai "swap (Failed)" "Calculating reverted" 1%Z].
Proof.
  apply (transcript_append_only (λ _, Throw SyntaxError)
           [QueryMessage 1%Z (mkForge "swap" "Calculating");
            QueryMessage 2%Z (mkForge "Error" " reverted")]
           (mkApp [mkMessage user "Prompt" "swap" 0%Z] [] 0 None true false)
           (mkApp [mkMessage user "Prompt" "swap" 0%Z;
                   mkMessage ai "swap (Failed)" "Calculating reverted" 1%Z]
              [] 0 None false false)).
  reflexivity.
Defined.

(** X11: the processed counter never goes down and is never reset along
    a sequence of controller events, whatever plans are installed in
    between; it advances by at most one per accepted submission. *)
Theorem counter_never_reset
    (parse : string → result (list TransactionDetails))
    (evs : list Event) (st st' : AppState) :
  run parse evs st = Ok st' →
  txCount st ≤ txCount st'
  ∧ txCount st' ≤ txCount st + length (filter (λ ev, accepted ev = true) evs).
Proof.
  revert st. induction evs as [|ev evs IH]; intros st.
  - intros [= <-]. simpl. lia.
  - cbn [run]. destruct (step parse ev st) as [st1|] eqn:Hstep; [| done].
    cbn [mbind result_bind]. intros [Hlo Hhi]%IH.
    assert (txCount st1 = txCount st
            ∨ (accepted ev = true ∧ txCount st1 = txCount st + 1)) as Hone.
    { destruct ev as [? ?|? ?|? ?|?|? ?|? ? [?|?]|?|? ?|?]; simpl in Hstep.
      - left. by injection Hstep as <-.
      - left. unfold query_onmessage in Hstep.
        destruct (String.eqb _ "Debug"); [by injection Hstep as <- |].
        destruct (String.eqb _ "Session"); [by injection Hstep as <- |].
        destruct (query_updater _ _ _); [by injection Hstep as <- | done].
      - left. injection Hstep as <-. unfold query_onerror.
        by destruct (Nat.eqb _ 0).
      - left. unfold getFix in Hstep.
        destruct (lastOf (messages st)); [| by injection Hstep as <-].
        destruct (negb _); by injection Hstep as <-.
      - left. rewrite fix_onmessage_cases in Hstep.
        destruct (String.eqb _ "Debug"); [by injection Hstep as <- |].
        match type of Hstep with
        | context [match ?c with Ok _ => _ | Throw _ => _ end] =>
            destruct c; [| done]
        end.
        destruct (fix_updater _ _ _); [by injection Hstep as <- | done].
      - apply effect_run_cells in Hstep as (_ & _ & Hn).
        destruct (transactions st); [by left | by right].
      - left. by apply effect_run_cells in Hstep as (_ & _ & Hn).
      - left. destruct (transactions st); by injection Hstep as <-.
      - right. by injection Hstep as <-.
      - left. by apply handleTransaction_catch_inv in Hstep
          as (l & m & _ & ->). }
    destruct Hone as [Heq | [Hacc Heq]].
    + split; [lia |]. destruct (decide (accepted ev = true)).
      * rewrite filter_cons_True by done. simpl. lia.
      * rewrite filter_cons_False by done. lia.
    + rewrite filter_cons_True by done. simpl. lia.
Qed.

Lemma counter_never_reset_witness :
  2 ≤ 3 ∧ 3 ≤ 2 + 1.
Proof.
  apply (counter_never_reset
           (λ _, Ok [mkTx "0xA" "approve" [] "0" "0x01"])
           [FixMessage 3%Z (mkForge "Simulating Transactions" plan_json);
            EffectRun 4%Z 5%Z (Sent "0xh")]
           (mkApp [] [] 2 None false true)
           (mkApp [mkMessage ai "Simulating Transactions" plan_json 3%Z;
                   mkMessage ai "approve 2/1"
                     (pendingContent (mkTx "0xA" "approve" [] "0" "0x01")) 4%Z;
                   mkMessage ai "Transaction" "Transaction sent! Hash: 0xh" 5%Z]
              [] 3 None false true)).
  reflexivity.
Defined.

(** ** Requests for a fix *)

Lemma includes_app_r (a b pat : string) :
  includes b pat = true → includes (a +:+ b) pat = true.
Proof.
  intros Hb. induction a as [|c a IH]; [done |].
  rewrite str_app_cons. cbn [includes]. rewrite IH. apply orb_true_r.
Qed.

Lemma includes_failed_suffix (t : string) :
  includes (t +:+ FailedSuffix) "Failed" = true.
Proof. by apply includes_app_r. Qed.

(** X12: an ["Error"] event that marks the last entry makes the fix
    available at once.  After it the stream of the request is closed,
    and [getFix] passes its gate and asks the fix endpoint with the
    caller's error text, the fixed RPC URL and the session identifier
    held at that moment (the empty string when none was received). *)
Theorem fix_enabled_after_error (now : Date) (output errorMessage : string)
    (st st' : AppState) (m : Message) :
  lastOf (messages st) = Some m →
  ¬ (title m = "Error" ∧ content m = output) →
  query_onmessage now (mkForge "Error" output) st = Ok st' →
  queryOpen st' = false
  ∧ getFix errorMessage st'
    = Some (mkFixRequest errorMessage "http://ethereumreth:8545"
              (or_empty (tempDir st)),
            set_fixOpen true st').
Proof.
  intros Hlast Hguard. unfold query_onmessage. simpl.
  rewrite (updater_error_cases _ _ _ _ Hlast).
  rewrite bool_decide_false by done. cbn [mbind result_bind fst snd].
  intros [= <-]. split; [apply andb_false_r |].
  apply lastOf_inv in Hlast as [l Hl]. unfold getFix. simpl.
  rewrite Hl, set_last_snoc, lastOf_snoc. simpl.
  by rewrite includes_failed_suffix.
Qed.

Lemma fix_enabled_after_error_witness :
  queryOpen
    (mkApp [mkMessage ai "swap (Failed)" "Calculating reverted" 5%Z]
       [] 0 (Some "/tmp/abc") false false) = false
  ∧ getFix "Calculating reverted"
      (mkApp [mkMessage ai "swap (Failed)" "Calculating reverted" 5%Z]
         [] 0 (Some "/tmp/abc") false false)
    = Some (mkFixRequest "Calculating reverted" "http://ethereumreth:8545"
              "/tmp/abc",
            mkApp [mkMessage ai "swap (Failed)" "Calculating reverted" 5%Z]
              [] 0 (Some "/tmp/abc") false true).
Proof.
  apply (fix_enabled_after_error 9%Z " reverted" "Calculating reverted"
           (mkApp [mkMessage ai "swap" "Calculating" 5%Z]
              [] 0 (Some "/tmp/abc") true false)
           (mkApp [mkMessage ai "swap (Failed)" "Calculating reverted" 5%Z]
              [] 0 (Some "/tmp/abc") false false)
           (mkMessage ai "swap" "Calculating" 5%Z)).
  - reflexivity.
  - intros [H _]. discriminate H.
  - reflexivity.
Defined.


(** ** The retrying event source under any schedule *)

Module SignalFacts.
Import Retry.

Lemma hook_ok_connect (n : nat) (h : Hook) :
  hook_ok n h → pending h ≠ None → hook_ok n (connect h).
Proof.
  intros (Hc & Hs & Hn & Hcalls & Hdone) Hp. unfold hook_ok. simpl.
  do 4 (split; [done |]). intros H1. by destruct (Hdone H1) as (_ & ? & _).
Qed.

Lemma hook_ok_onerror (n : nat) (h : Hook) :
  1 ≤ n → hook_ok n h → sourceOpen h = true →
  hook_ok n (onerror (Some (Z.of_nat n)) h).
Proof.
  intros Hn1 (Hc & Hs & Hn & Hcalls & Hdone) Hopen.
  assert (onErrorCalls h = 0) as H0.
  { destruct (decide (onErrorCalls h = 1)) as [H1|]; [| lia].
    destruct (Hdone H1) as (_ & _ & Hclosed). congruence. }
  destruct h as [rc p o sch c]. simpl in *. subst rc c.
  destruct (decide (length sch = n)) as [Heq|Hne].
  - rewrite Heq, RetryFacts.onerror_at_cap by done.
    unfold hook_ok. simpl.
    split; [by rewrite Heq |]. split; [done |].
    split; [lia |]. split; [lia |]. done.
  - rewrite RetryFacts.onerror_below by lia.
    unfold hook_ok. simpl. rewrite length_app. simpl.
    replace (length sch + 1) with (S (length sch)) by lia.
    rewrite RetryFacts.backoff_S, <- Hs.
    split; [lia |]. split; [done |]. split; [lia |]. split; [lia |]. lia.
Qed.

Lemma hook_ok_react (n : nat) (s : Signal) (h : Hook) :
  1 ≤ n → hook_ok n h → hook_ok n (react (Some (Z.of_nat n)) s h).
Proof.
  intros Hn1 Hok. destruct s; simpl.
  - destruct (sourceOpen h) eqn:Hopen; [by apply hook_ok_onerror | done].
  - done.
  - destruct (pending h) eqn:Hp; [| done]. apply hook_ok_connect; [done |].
    by rewrite Hp.
  - destruct Hok as (Hc & Hs & Hn & Hcalls & Hdone). unfold hook_ok. simpl.
    do 4 (split; [done |]). intros H1. by destruct (Hdone H1) as (? & ? & _).
Qed.

Lemma hook_ok_foldl (n : nat) (signals : list Signal) :
  1 ≤ n →
  ∀ h, hook_ok n h →
       hook_ok n (foldl (λ h s, react (Some (Z.of_nat n)) s h) h signals).
Proof.
  intros Hn1. induction signals as [|s signals IH]; intros h Hok; [done |].
  simpl. apply IH. by apply hook_ok_react.
Qed.

Lemma sum_backoff (n : nat) (acc : Z) :
  foldr Z.add acc (backoff n) = (acc + 500 * Z.of_nat n * (Z.of_nat n + 1))%Z.
Proof.
  revert acc. induction n as [|n IH]; intros acc; [simpl; lia |].
  rewrite RetryFacts.backoff_S, foldr_app, IH. simpl. lia.
Qed.

End SignalFacts.

(** X14: with a cap [N >= 1], whatever the order of errors, messages,
    timer expiries and unmounts, the hook calls [options.onError] at
    most once and never schedules more than [N] retries; the [k]-th
    retry it schedules waits [k*1000] ms.  The count of retries is never
    reset by a connection that worked for a while, so the cap bounds the
    failures of the whole life of the hook, not consecutive ones; once
    [options.onError] was called, [N] retries were made, no timer is
    pending and the source is closed. *)
Theorem retry_cap_under_any_schedule (N : Z) (signals : list Retry.Signal) :
  (1 ≤ N)%Z →
  Retry.onErrorCalls (Retry.after (Some N) signals) ≤ 1
  ∧ length (Retry.scheduled (Retry.after (Some N) signals)) ≤ Z.to_nat N
  ∧ Retry.scheduled (Retry.after (Some N) signals)
    = Retry.backoff (length (Retry.scheduled (Retry.after (Some N) signals)))
  ∧ (Retry.onErrorCalls (Retry.after (Some N) signals) = 1 →
     length (Retry.scheduled (Retry.after (Some N) signals)) = Z.to_nat N
     ∧ Retry.pending (Retry.after (Some N) signals) = None
     ∧ Retry.sourceOpen (Retry.after (Some N) signals) = false).
Proof.
  intros HN. unfold Retry.after. rewrite <- (Z2Nat.id N) by lia.
  rewrite Nat2Z.id.
  destruct (SignalFacts.hook_ok_foldl (Z.to_nat N) signals ltac:(lia)
              (Retry.connect Retry.init)) as (_ & Hs & Hn & Hcalls & Hdone).
  - unfold hook_ok. simpl. do 2 (split; [done |]). split; [lia |].
    split; [lia |]. lia.
  - done.
Qed.

Lemma retry_cap_under_any_schedule_witness :
  Retry.onErrorCalls
    (Retry.after (Some 2%Z)
       [Retry.ErrorSignal; Retry.TimerSignal; Retry.MessageSignal;
        Retry.ErrorSignal; Retry.TimerSignal; Retry.ErrorSignal;
        Retry.ErrorSignal; Retry.TimerSignal]) ≤ 1.
Proof.
  apply (retry_cap_under_any_schedule 2%Z
           [Retry.ErrorSignal; Retry.TimerSignal; Retry.MessageSignal;
            Retry.ErrorSignal; Retry.TimerSignal; Retry.ErrorSignal;
            Retry.ErrorSignal; Retry.TimerSignal]).
  lia.
Defined.

(** X15: against a connection that always fails, a hook with cap
    [N >= 1] has waited [500 * N * (N + 1)] ms in total when it gives
    up (the sum of its delays [1000 + 2000 + ... + N*1000]). *)
Theorem total_backoff_before_giving_up (N : Z) (attempts : nat) :
  (1 ≤ N)%Z →
  Z.to_nat N < attempts →
  Retry.total_delay (Retry.always_failing attempts (Some N) Retry.init)
  = (500 * N * (N + 1))%Z.
Proof.
  intros HN Hfuel.
  pose proof (RetryFacts.always_failing_from (Z.to_nat N) ltac:(lia)
                attempts 0 None false ltac:(lia) ltac:(lia)) as H.
  change (Retry.mkHook (Z.of_nat 0) None false (Retry.backoff 0) 0)
    with Retry.init in H.
  rewrite Z2Nat.id in H by lia. rewrite H.
  unfold Retry.total_delay. simpl. rewrite SignalFacts.sum_backoff. lia.
Qed.

Lemma total_backoff_before_giving_up_witness :
  Retry.total_delay (Retry.always_failing 5 (Some 3%Z) Retry.init) = 6000%Z.
Proof.
  apply (total_backoff_before_giving_up 3%Z 5); [lia | vm_compute; lia].
Defined.

(** X16: a negative cap is truthy and no count is below it, so the first
    failure already ends in [options.onError]: no retry is scheduled. *)
Theorem negative_cap_gives_up_at_once (N : Z) (attempts : nat) :
  (N < 0)%Z →
  0 < attempts →
  Retry.always_failing attempts (Some N) Retry.init
  = Retry.mkHook 0 None false [] 1.
Proof.
  intros HN Hfuel. destruct attempts as [|a]; [lia |].
  cbn [Retry.always_failing]. unfold Retry.onerror, Retry.connect. simpl.
  replace (N =? 0)%Z with false by (symmetry; apply Z.eqb_neq; lia).
  by replace (0 <? N)%Z with false by (symmetry; apply Z.ltb_ge; lia).
Qed.

Lemma negative_cap_gives_up_at_once_witness :
  Retry.always_failing 4 (Some (-1)%Z) Retry.init
  = Retry.mkHook 0 None false [] 1.
Proof.
  apply (negative_cap_gives_up_at_once (-1)%Z 4); lia.
Defined.

(** X17: unmounting does not cancel a retry.  The cleanup closes the
    current source but leaves the timer set by the last failure, so when
    that timer expires after the unmount [connect] runs again and the
    hook ends with an open event source. *)
Theorem unmount_keeps_retry_timer (maxRetries : option Z) (h : Retry.Hook) :
  Retry.sourceOpen h = true →
  Retry.not_maxRetries maxRetries
  || Retry.below (Retry.retryCount h) maxRetries = true →
  Retry.pending
    (Retry.react maxRetries Retry.Unmount
       (Retry.react maxRetries Retry.ErrorSignal h))
  = Some (1000 * (Retry.retryCount h + 1))%Z
  ∧ Retry.sourceOpen
      (Retry.react maxRetries Retry.TimerSignal
         (Retry.react maxRetries Retry.Unmount
            (Retry.react maxRetries Retry.ErrorSignal h)))
    = true.
Proof.
  intros Hopen Hretry. simpl. rewrite Hopen. unfold Retry.onerror.
  by rewrite Hretry.
Qed.

Lemma unmount_keeps_retry_timer_witness :
  Retry.sourceOpen
    (Retry.react (Some 3%Z) Retry.TimerSignal
       (Retry.react (Some 3%Z) Retry.Unmount
          (Retry.react (Some 3%Z) Retry.ErrorSignal
             (Retry.connect Retry.init))))
  = true.
Proof.
  apply (unmount_keeps_retry_timer (Some 3%Z) (Retry.connect Retry.init));
    reflexivity.
Defined.

(** ** Witnesses and repeated errors *)

Lemma reachable_error_event_witness :
  query_updater 9%Z (mkForge "Error" " reverted")
    [mkMessage user "Prompt" "swap" 0%Z; mkMessage ai "swap" "Calculating" 1%Z]
  = Ok ([mkMessage user "Prompt" "swap" 0%Z;
         mkMessage ai "swap (Failed)" "Calculating reverted" 1%Z], true).
Proof.
  exact (reachable_error_event (λ _, Throw SyntaxError)
           (mkApp [mkMessage user "Prompt" "swap" 0%Z;
                   mkMessage ai "swap" "Calculating" 1%Z]
              [] 0 None true false)
           9%Z " reverted" (mkMessage ai "swap" "Calculating" 1%Z)
           (reach_step _ (QueryMessage 1%Z (mkForge "swap" "Calculating"))
              (mkApp [mkMessage user "Prompt" "swap" 0%Z] [] 0 None true false)
              _
              (reach_step _ (Submit 0%Z "swap") initial _
                 (reach_initial _) eq_refl)
              eq_refl)
           eq_refl).
Defined.

Lemma run_query_foldAll_witness :
  ∃ st',
    run_query
      [(1%Z, mkForge "swap" "Calculating"); (2%Z, mkForge "swap" " route")]
      (mkApp [mkMessage user "Prompt" "swap" 0%Z] [] 0 None true false)
    = Ok st'
    ∧ messages st'
      = [mkMessage user "Prompt" "swap" 0%Z;
         mkMessage ai "swap" "Calculating route" 1%Z].
Proof.
  apply (run_query_foldAll
           [(1%Z, mkForge "swap" "Calculating"); (2%Z, mkForge "swap" " route")]).
  - repeat constructor; discriminate.
  - reflexivity.
Defined.

Lemma updater_ref_refines_witness :
  ∃ arr' h',
    query_updater_ref 2%Z (mkForge "swap" " route") [1%positive]
      {[ 1%positive := mkMessage ai "swap" "Calculating" 1%Z ]}
    = Ok (arr', h', false)
    ∧ denotes h' arr' [mkMessage ai "swap" "Calculating route" 1%Z]
    ∧ NoDup arr'
    ∧ (length [mkMessage ai "swap" "Calculating route" 1%Z]
       = length [mkMessage ai "swap" "Calculating" 1%Z] →
       arr' = [1%positive]).
Proof.
  apply (updater_ref_refines 2%Z (mkForge "swap" " route") [1%positive]
           {[ 1%positive := mkMessage ai "swap" "Calculating" 1%Z ]}
           [mkMessage ai "swap" "Calculating" 1%Z]).
  - apply NoDup_singleton.
  - constructor; [reflexivity | constructor].
Defined.

(** X21: the failure marker is not deduplicated.  When several ["Error"]
    events are folded one after the other into an entry that is not
    itself titled ["Error"], every one of them is appended and every
    one adds another [" (Failed)"] to the title: after [k] events the
    title carries [k] markers and the content all [k] outputs in
    order.  The guard never swallows any of them. *)
Theorem repeated_errors_stack_markers (evs : list (Date * ForgeResponse))
    (l : list Message) (m : Message) :
  Forall (λ e, f_title e.2 = "Error") evs →
  title m ≠ "Error" →
  foldAll evs (l ++ [m])
  = Ok (l ++ [mkMessage (role m) (title m +:+ markers (length evs))
                (content m +:+ String.concat "" (outputs evs))
                (timestamp m)]).
Proof.
  intros Hall. revert m.
  induction Hall as [|[now [ttl out]] evs Ht _ IH]; intros m Hm.
  - simpl. rewrite !str_app_empty_r. by destruct m.
  - simpl in Ht. subst ttl. cbn [foldAll]. rewrite fold1_snoc.
    cbn [mbind result_bind f_title f_output].
    apply String.eqb_neq in Hm as Hm'. rewrite Hm', andb_false_r.
    cbn [negb andb String.eqb Ascii.eqb Bool.eqb].
    rewrite IH by apply failed_suffix_not_Error.
    change (outputs ((now, mkForge "Error" out) :: evs))
      with (out :: outputs evs).
    rewrite concat_empty_cons. unfold failed.
    cbn [role title content timestamp length markers].
    by rewrite !str_app_assoc.
Qed.

Lemma repeated_errors_stack_markers_witness :
  foldAll [(2%Z, mkForge "Error" " reverted"); (3%Z, mkForge "Error" " again")]
    [mkMessage ai "swap" "Calculating" 1%Z]
  = Ok [mkMessage ai "swap (Failed) (Failed)" "Calculating reverted again" 1%Z].
Proof.
  apply (repeated_errors_stack_markers
           [(2%Z, mkForge "Error" " reverted"); (3%Z, mkForge "Error" " again")]
           [] (mkMessage ai "swap" "Calculating" 1%Z)).
  - repeat constructor.
  - discriminate.
Defined.

(** ** A plan replaced while a submission is awaited *)

(** X22: the [then] block pops the head of the queue as it is when the
    provider answers, not the transaction that was submitted.  If the
    fix stream installs a new plan while a submission is awaited, the
    accepted submission removes the first transaction of the new plan,
    and the counter still advances by one. *)
Theorem plan_replaced_while_awaiting
    (parse : string → result (list TransactionDetails))
    (now arrived settled : Date) (hash output : string)
    (planB : list TransactionDetails) (st st1 st2 st3 : AppState) :
  step parse (TxBegin now) st = Ok st1 →
  includes output "[{" = true →
  parse output = Ok planB →
  step parse (FixMessage arrived (mkForge "Simulating Transactions" output)) st1
  = Ok st2 →
  step parse (TxThen settled hash) st2 = Ok st3 →
  transactions st3 = drop 1 planB
  ∧ txCount st3 = txCount st + 1
  ∧ lastOf (messages st3)
    = Some (mkMessage ai "Transaction" ("Transaction sent! Hash: " +:+ hash)
              settled).
Proof.
  intros Hbegin Hinc Hparse Hfix Hthen. simpl in *.
  assert (txCount st1 = txCount st) as Hn1.
  { destruct (transactions st); by injection Hbegin as <-. }
  rewrite fix_onmessage_cases in Hfix. simpl in Hfix.
  rewrite Hinc, Hparse in Hfix.
  destruct (fix_updater _ _ _) as [r|]; [| done].
  injection Hfix as <-. injection Hthen as <-. simpl.
  rewrite lastOf_snoc. split; [done |]. split; [by rewrite Hn1 | done].
Qed.

Lemma plan_replaced_while_awaiting_witness :
  transactions
    (mkApp [mkMessage ai "approve 0/1"
              (pendingContent (mkTx "0xA" "approve" [] "0" "0x01")) 1%Z;
            mkMessage ai "Simulating Transactions" plan_json 2%Z;
            mkMessage ai "Transaction" "Transaction sent! Hash: 0xh" 3%Z]
       [] 1 None false true)
  = drop 1 [mkTx "0xB" "transfer" [] "0" "0x02"].
Proof.
  apply (plan_replaced_while_awaiting
           (λ _, Ok [mkTx "0xB" "transfer" [] "0" "0x02"])
           1%Z 2%Z 3%Z "0xh" plan_json
           [mkTx "0xB" "transfer" [] "0" "0x02"]
           (mkApp [] [mkTx "0xA" "approve" [] "0" "0x01"] 0 None false true)
           (mkApp [mkMessage ai "approve 0/1"
                     (pendingContent (mkTx "0xA" "approve" [] "0" "0x01")) 1%Z]
              [mkTx "0xA" "approve" [] "0" "0x01"] 0 None false true)
           (mkApp [mkMessage ai "approve 0/1"
                     (pendingContent (mkTx "0xA" "approve" [] "0" "0x01")) 1%Z;
                   mkMessage ai "Simulating Transactions" plan_json 2%Z]
              [mkTx "0xB" "transfer" [] "0" "0x02"] 0 None false true));
    reflexivity.
Defined.
